(** * AIRAC cycles: a model of [airac.go] and its specification

    The Go package represents an AIRAC cycle as a [uint16] counting 28-day
    periods since 1901-01-10T00:00:00Z and converts between cycles, dates
    and "YYOO" identifiers.  The model below follows the source function by
    function.  Go's fixed-width integers are [Z] values with their
    wrap-around written out; the parts of Go's [time], [strings], [strconv],
    [unicode/utf8] and [fmt] packages that the source calls are modelled in
    modules named after them. *)

From Stdlib Require Import ZArith List Bool Lia Ascii String.
From Stdlib Require Import Numbers.DecimalString.
Import ListNotations.

Open Scope Z_scope.

(** ** Fixed-width integers *)

Module GoInt.

Definition two16 : Z := Eval cbv in 2 ^ 16.
Definition two31 : Z := Eval cbv in 2 ^ 31.
Definition two32 : Z := Eval cbv in 2 ^ 32.
Definition two63 : Z := Eval cbv in 2 ^ 63.
Definition two64 : Z := Eval cbv in 2 ^ 64.

(** Conversion to [int64] (and the result of every [int64] operation). *)
Definition int64 (z : Z) : Z := (z + two63) mod two64 - two63.

(** Conversion to [uint64]. *)
Definition uint64 (z : Z) : Z := z mod two64.

(** Conversion to [uint16]. *)
Definition uint16 (z : Z) : Z := z mod two16.

(** Conversion to [int32]. *)
Definition int32 (z : Z) : Z := (z + two31) mod two32 - two31.

Definition maxInt64 : Z := two63 - 1.
Definition minInt64 : Z := - two63.

Lemma int64_small z : minInt64 <= z <= maxInt64 -> int64 z = z.
Proof.
  unfold int64, minInt64, maxInt64, two63, two64. intros H.
  rewrite Z.mod_small by lia. lia.
Qed.

Lemma int64_range z : minInt64 <= int64 z <= maxInt64.
Proof.
  unfold int64, minInt64, maxInt64, two63, two64.
  pose proof (Z.mod_pos_bound (z + 9223372036854775808) 18446744073709551616
                ltac:(lia)). lia.
Qed.

Lemma uint64_small z : 0 <= z < two64 -> uint64 z = z.
Proof. intros H. unfold uint64. now apply Z.mod_small. Qed.

Lemma uint64_range z : 0 <= uint64 z < two64.
Proof. unfold uint64, two64. apply Z.mod_pos_bound. lia. Qed.

Lemma uint16_small z : 0 <= z < 65536 -> uint16 z = z.
Proof. intros H. unfold uint16, two16. now apply Z.mod_small. Qed.

Lemma uint16_range z : 0 <= uint16 z < 65536.
Proof. unfold uint16, two16. apply Z.mod_pos_bound. lia. Qed.

End GoInt.

(** ** Package [time] *)

Module time.
Import GoInt.

(** A [time.Time] without monotonic clock reading and in the UTC location:
    [ext] is the [int64] number of seconds since January 1 of year 1,
    [nsec] the nanoseconds within the second.  Every [Time] the package
    builds comes from [time.Date(..., time.UTC)] followed by [Add], which
    keep both properties. *)
Record Time : Type := mkTime { ext : Z; nsec : Z }.

(** A [time.Duration] is an [int64] count of nanoseconds. *)
Definition Duration : Type := Z.

Definition Nanosecond : Duration := 1.
Definition Second : Duration := 1000000000.
Definition Hour : Duration := 3600 * Second.

Definition minDuration : Duration := minInt64.
Definition maxDuration : Duration := maxInt64.

Definition secondsPerMinute : Z := 60.
Definition secondsPerHour : Z := 60 * secondsPerMinute.
Definition secondsPerDay : Z := 24 * secondsPerHour.
Definition daysPer400Years : Z := 365 * 400 + 97.
Definition daysPer100Years : Z := 365 * 100 + 24.
Definition daysPer4Years : Z := 365 * 4 + 1.

Definition absoluteZeroYear : Z := -292277022399.
Definition internalYear : Z := 1.

(** [(absoluteZeroYear - internalYear) * 365.2425 * secondsPerDay] *)
Definition absoluteToInternal : Z :=
  Eval cbv in (absoluteZeroYear - internalYear) * 3652425 * 86400 / 10000.
Definition internalToAbsolute : Z := - absoluteToInternal.

Definition January : Z := 1.
Definition February : Z := 2.
Definition March : Z := 3.
Definition December : Z := 12.

(** [daysBefore[m]] counts the days of a non-leap year before month [m+1]. *)
Definition daysBefore (m : Z) : Z :=
  nth (Z.to_nat m) [0; 31; 59; 90; 120; 151; 181; 212; 243; 273; 304; 334; 365] 0.

Definition isLeap (year : Z) : bool :=
  (Z.rem year 4 =? 0) && (negb (Z.rem year 100 =? 0) || (Z.rem year 400 =? 0)).

(** [norm hi lo base] carries [lo] into [hi] so that [0 <= lo < base]. *)
Definition norm (hi lo base : Z) : Z * Z :=
  let '(hi, lo) :=
    if lo <? 0 then
      let n := Z.quot (- lo - 1) base + 1 in (hi - n, lo + n * base)
    else (hi, lo) in
  if lo >=? base then
    let n := Z.quot lo base in (hi + n, lo - n * base)
  else (hi, lo).

(** Days from the absolute epoch to January 1 of [year], as a [uint64]. *)
Definition daysSinceEpoch (year : Z) : Z :=
  let y := uint64 (year - absoluteZeroYear) in
  let n := y / 400 in
  let y := y - 400 * n in
  let d := daysPer400Years * n in
  let n := y / 100 in
  let y := y - 100 * n in
  let d := d + daysPer100Years * n in
  let n := y / 4 in
  let y := y - 4 * n in
  let d := d + daysPer4Years * n in
  let n := y in
  uint64 (d + 365 * n).

(** [time.Date(year, month, day, hour, min, sec, nsec, time.UTC)] *)
Definition Date (year month day hour min sec nsec : Z) : Time :=
  let m := month - 1 in
  let '(year, m) := norm year m 12 in
  let month := m + 1 in
  let '(sec, nsec) := norm sec nsec 1000000000 in
  let '(min, sec) := norm min sec 60 in
  let '(hour, min) := norm hour min 60 in
  let '(day, hour) := norm day hour 24 in
  let d := daysSinceEpoch year in
  let d := d + daysBefore (month - 1) in
  let d := if isLeap year && (month >=? March) then d + 1 else d in
  let d := uint64 (d + uint64 (day - 1)) in
  let abs := uint64 (d * secondsPerDay) in
  let abs := uint64 (abs + uint64 (hour * secondsPerHour + min * secondsPerMinute + sec)) in
  mkTime (int64 (int64 abs + absoluteToInternal)) (int32 nsec).

(** Seconds since the absolute epoch, as a [uint64]. *)
Definition abs (t : Time) : Z := uint64 (ext t + internalToAbsolute).

(** [absDate(abs, true)]: year, month, day of the month and 0-based day of
    the year of an absolute time. *)
Definition absDate (abs : Z) : Z * Z * Z * Z :=
  let d := abs / secondsPerDay in
  let n := d / daysPer400Years in
  let y := 400 * n in
  let d := d - daysPer400Years * n in
  let n := d / daysPer100Years in
  let n := n - Z.shiftr n 2 in
  let y := y + 100 * n in
  let d := d - daysPer100Years * n in
  let n := d / daysPer4Years in
  let y := y + 4 * n in
  let d := d - daysPer4Years * n in
  let n := d / 365 in
  let n := n - Z.shiftr n 2 in
  let y := y + n in
  let d := d - 365 * n in
  let year := int64 (int64 y + absoluteZeroYear) in
  let yday := d in
  let day := yday in
  if isLeap year && (day =? 31 + 29 - 1) then (year, February, 29, yday)
  else
    let day := if isLeap year && (day >? 31 + 29 - 1) then day - 1 else day in
    let month := day / 31 in
    let e := daysBefore (month + 1) in
    let '(month, begin) :=
      if day >=? e then (month + 1, e) else (month, daysBefore month) in
    (year, month + 1, day - begin + 1, yday).

Definition Year (t : Time) : Z :=
  let '(year, _, _, _) := absDate (abs t) in year.

Definition Month (t : Time) : Z :=
  let '(_, month, _, _) := absDate (abs t) in month.

Definition Day (t : Time) : Z :=
  let '(_, _, day, _) := absDate (abs t) in day.

Definition YearDay (t : Time) : Z :=
  let '(_, _, _, yday) := absDate (abs t) in yday + 1.

(** [t.Clock()]: hour, minute and second within the day. *)
Definition Clock (t : Time) : Z * Z * Z :=
  let sec := abs t mod secondsPerDay in
  let hour := sec / secondsPerHour in
  let sec := sec - hour * secondsPerHour in
  let min := sec / secondsPerMinute in
  let sec := sec - min * secondsPerMinute in
  (hour, min, sec).

(** [t.addSec(d)], saturating when the sum leaves [int64]. *)
Definition addSec (t : Time) (d : Z) : Time :=
  let sum := int64 (ext t + d) in
  if Bool.eqb (sum >? ext t) (d >? 0) then mkTime sum (nsec t)
  else if d >? 0 then mkTime maxInt64 (nsec t)
  else mkTime (- maxInt64) (nsec t).

(** [t.Add(d)] *)
Definition Add (t : Time) (d : Duration) : Time :=
  let dsec := Z.quot d 1000000000 in
  let ns := nsec t + int32 (Z.rem d 1000000000) in
  let '(dsec, ns) :=
    if ns >=? 1000000000 then (dsec + 1, ns - 1000000000)
    else if ns <? 0 then (dsec - 1, ns + 1000000000)
    else (dsec, ns) in
  addSec (mkTime (ext t) ns) dsec.

Definition Equal (t u : Time) : bool :=
  (ext t =? ext u) && (nsec t =? nsec u).

Definition Before (t u : Time) : bool :=
  (ext t <? ext u) || ((ext t =? ext u) && (nsec t <? nsec u)).

(** [t.Sub(u)], saturating at the largest and smallest [Duration]. *)
Definition Sub (t u : Time) : Duration :=
  let d := int64 (int64 (int64 (ext t - ext u) * Second) + (nsec t - nsec u)) in
  if Equal (Add u d) t then d
  else if Before t u then minDuration
  else maxDuration.

End time.

(** ** Go strings

    A Go string is a sequence of bytes; it is modelled by [string], whose
    characters are 8-bit.  [s[i:j]] is [slice s i j]. *)

Definition byte (c : ascii) : Z := Z.of_N (N_of_ascii c).

Definition bytes (s : string) : list Z := map byte (list_ascii_of_string s).

Definition len (s : string) : Z := Z.of_nat (String.length s).

Definition slice (s : string) (i j : nat) : string := substring i (j - i) s.

Definition index (s : string) (i : nat) : Z :=
  match String.get i s with Some c => byte c | None => 0 end.

(** ** Package [unicode/utf8] *)

Module utf8.

Definition RuneError : Z := 65533.
Definition RuneSelf : Z := 128.
Definition UTFMax : nat := 4.

(** The entry of the [first] table for a leading byte: [None] for an
    invalid leading byte ([xx]), otherwise the length of the sequence and
    the range accepted for its second byte.  ASCII bytes ([as]) are
    handled before the table is consulted. *)
Definition first (b : Z) : option (Z * (Z * Z)) :=
  if b <? 194 then None
  else if b <=? 223 then Some (2, (128, 191))
  else if b =? 224 then Some (3, (160, 191))
  else if b <=? 236 then Some (3, (128, 191))
  else if b =? 237 then Some (3, (128, 159))
  else if b <=? 239 then Some (3, (128, 191))
  else if b =? 240 then Some (4, (144, 191))
  else if b <=? 243 then Some (4, (128, 191))
  else if b =? 244 then Some (4, (128, 143))
  else None.

Definition cont (b : Z) : bool := (128 <=? b) && (b <=? 191).

(** [utf8.DecodeRuneInString]: the first rune of [p] and its width. *)
Definition DecodeRune (p : list Z) : Z * nat :=
  match p with
  | [] => (RuneError, 0%nat)
  | p0 :: rest =>
      if p0 <? RuneSelf then (p0, 1%nat)
      else
        match first p0 with
        | None => (RuneError, 1%nat)
        | Some (sz, (lo, hi)) =>
            if Z.of_nat (List.length p) <? sz then (RuneError, 1%nat)
            else
              match rest with
              | [] => (RuneError, 1%nat)
              | b1 :: rest1 =>
                  if (b1 <? lo) || (hi <? b1) then (RuneError, 1%nat)
                  else if sz <=? 2 then
                    (Z.lor (Z.shiftl (Z.land p0 31) 6) (Z.land b1 63), 2%nat)
                  else
                    match rest1 with
                    | [] => (RuneError, 1%nat)
                    | b2 :: rest2 =>
                        if negb (cont b2) then (RuneError, 1%nat)
                        else if sz <=? 3 then
                          (Z.lor (Z.lor (Z.shiftl (Z.land p0 15) 12)
                                        (Z.shiftl (Z.land b1 63) 6))
                                 (Z.land b2 63), 3%nat)
                        else
                          match rest2 with
                          | [] => (RuneError, 1%nat)
                          | b3 :: _ =>
                              if negb (cont b3) then (RuneError, 1%nat)
                              else
                                (Z.lor (Z.lor (Z.lor (Z.shiftl (Z.land p0 7) 18)
                                                     (Z.shiftl (Z.land b1 63) 12))
                                              (Z.shiftl (Z.land b2 63) 6))
                                       (Z.land b3 63), 4%nat)
                          end
                    end
              end
        end
  end.

Definition RuneStart (b : Z) : bool := negb (Z.land b 192 =? 128).

(** The backwards scan of [DecodeLastRuneInString]: from [start], step
    down to the first rune start, at most to [lim]; [None] stands for an
    index below [lim]. *)
Fixpoint scanStart (s : string) (start : nat) (steps : nat) : option nat :=
  match steps with
  | O => None
  | S steps' =>
      if RuneStart (index s start) then Some start
      else
        match start with
        | O => None
        | S start' => scanStart s start' steps'
        end
  end.

(** [utf8.DecodeLastRuneInString]: the last rune of [s] and its width. *)
Definition DecodeLastRune (s : string) : Z * nat :=
  let e := String.length s in
  match e with
  | O => (RuneError, 0%nat)
  | S start =>
      let r := index s start in
      if r <? RuneSelf then (r, 1%nat)
      else
        let lim := (e - UTFMax)%nat in
        let start :=
          match start with
          | O => O
          | S start' =>
              match scanStart s start' (start' - lim + 1) with
              | Some i => i
              | None => if (lim =? 0)%nat then O else (lim - 1)%nat
              end
          end in
        let '(r, size) := DecodeRune (bytes (slice s start e)) in
        if (start + size =? e)%nat then (r, size) else (RuneError, 1%nat)
  end.

End utf8.

(** ** Package [unicode] *)

Module unicode.

(** [unicode.IsSpace]: the code points with the White_Space property. *)
Definition IsSpace (r : Z) : bool :=
  if r <=? 255 then
    ((9 <=? r) && (r <=? 13)) || (r =? 32) || (r =? 133) || (r =? 160)
  else
    (r =? 5760) || ((8192 <=? r) && (r <=? 8202)) || (r =? 8232) || (r =? 8233)
    || (r =? 8239) || (r =? 8287) || (r =? 12288).

End unicode.

(** ** Package [strings] *)

Module strings.

(** The [asciiSpace] table. *)
Definition asciiSpace (c : Z) : bool :=
  (c =? 9) || (c =? 10) || (c =? 11) || (c =? 12) || (c =? 13) || (c =? 32).

(** [indexFunc(s, f, false)] from byte offset [i]: the offset of the first
    rune that does not satisfy [f], [None] for the result [-1]. *)
Fixpoint indexFuncFrom (f : Z -> bool) (s : string) (i : nat) (fuel : nat)
  : option nat :=
  match fuel with
  | O => None
  | S fuel' =>
      if (String.length s <=? i)%nat then None
      else
        let '(r, size) := utf8.DecodeRune (bytes (slice s i (String.length s))) in
        if negb (f r) then Some i
        else indexFuncFrom f s (i + size) fuel'
  end.

Definition indexFunc (f : Z -> bool) (s : string) : option nat :=
  indexFuncFrom f s 0 (String.length s).

(** [lastIndexFunc(s, f, false)]: the offset of the last rune that does
    not satisfy [f], scanning [s[0:i]] from its end. *)
Fixpoint lastIndexFuncFrom (f : Z -> bool) (s : string) (i : nat) (fuel : nat)
  : option nat :=
  match fuel with
  | O => None
  | S fuel' =>
      if (i =? 0)%nat then None
      else
        let '(r, size) := utf8.DecodeLastRune (slice s 0 i) in
        let i := (i - size)%nat in
        if negb (f r) then Some i
        else lastIndexFuncFrom f s i fuel'
  end.

Definition lastIndexFunc (f : Z -> bool) (s : string) : option nat :=
  lastIndexFuncFrom f s (String.length s) (String.length s).

Definition TrimLeftFunc (s : string) (f : Z -> bool) : string :=
  match indexFunc f s with
  | None => ""
  | Some i => slice s i (String.length s)
  end.

Definition TrimRightFunc (s : string) (f : Z -> bool) : string :=
  match lastIndexFunc f s with
  | Some i =>
      if index s i >=? utf8.RuneSelf then
        let '(_, wid) := utf8.DecodeRune (bytes (slice s i (String.length s))) in
        slice s 0 (i + wid)
      else slice s 0 (i + 1)
  | None => slice s 0 0
  end.

Definition TrimFunc (s : string) (f : Z -> bool) : string :=
  TrimRightFunc (TrimLeftFunc s f) f.

(** The second loop of [TrimSpace]: lower [stop] over ASCII spaces. *)
Fixpoint trimStop (s : string) (start stop : nat) : string :=
  match stop with
  | O => slice s start stop
  | S stop' =>
      if (stop <=? start)%nat then slice s start stop
      else
        let c := index s stop' in
        if c >=? utf8.RuneSelf then
          TrimRightFunc (slice s start stop) unicode.IsSpace
        else if negb (asciiSpace c) then slice s start stop
        else trimStop s start stop'
  end.

(** The first loop of [TrimSpace]: raise [start] over ASCII spaces. *)
Fixpoint trimStart (s : string) (start : nat) (fuel : nat) : string :=
  match fuel with
  | O => trimStop s start (String.length s)
  | S fuel' =>
      if (String.length s <=? start)%nat then trimStop s start (String.length s)
      else
        let c := index s start in
        if c >=? utf8.RuneSelf then
          TrimFunc (slice s start (String.length s)) unicode.IsSpace
        else if negb (asciiSpace c) then trimStop s start (String.length s)
        else trimStart s (S start) fuel'
  end.

(** [strings.TrimSpace] *)
Definition TrimSpace (s : string) : string :=
  trimStart s 0 (String.length s).

End strings.

(** ** Package [strconv] *)

Module strconv.

Inductive NumError : Type := ErrSyntax | ErrRange.

(** The digit loop of [Atoi]'s fast path. *)
Fixpoint digitsFrom (n : Z) (s : string) : option Z :=
  match s with
  | EmptyString => Some n
  | String c s' =>
      let ch := (byte c - 48) mod 256 in
      if ch >? 9 then None else digitsFrom (n * 10 + ch) s'
  end.

Definition isSign (c : Z) : bool := (c =? 45) || (c =? 43).

(** The digit loop of [ParseUint(s, 10, 64)]: overflow is reported where
    it happens, before the rest of the string is looked at. *)
Fixpoint parseUintFrom (n : Z) (s : string) : Z + NumError :=
  match s with
  | EmptyString => inl n
  | String c s' =>
      let ch := byte c in
      if (48 <=? ch) && (ch <=? 57) then
        if n >=? (GoInt.two64 - 1) / 10 + 1 then inr ErrRange
        else
          let n1 := n * 10 + (ch - 48) in
          if n1 >? GoInt.two64 - 1 then inr ErrRange else parseUintFrom n1 s'
      else inr ErrSyntax
  end.

(** [strconv.ParseInt(s, 10, 0)] on a 64-bit platform. *)
Definition ParseInt (s : string) : Z + NumError :=
  if (String.length s =? 0)%nat then inr ErrSyntax
  else
    let neg := index s 0 =? 45 in
    let body :=
      if isSign (index s 0) then slice s 1 (String.length s) else s in
    if (String.length body <? 1)%nat then inr ErrSyntax
    else
      match parseUintFrom 0 body with
      | inr ErrSyntax => inr ErrSyntax
      | inr ErrRange => inr ErrRange
      | inl un =>
          let cutoff := GoInt.two63 in
          if negb neg && (un >=? cutoff) then inr ErrRange
          else if neg && (un >? cutoff) then inr ErrRange
          else inl (if neg then - un else un)
      end.

(** [strconv.Atoi] on a 64-bit platform: strings of 1 to 18 bytes take
    the fast path, the others go through [ParseInt]. *)
Definition Atoi (s : string) : Z + NumError :=
  if ((0 <? String.length s) && (String.length s <? 19))%nat then
    let s0 := s in
    let s :=
      if isSign (index s 0) then slice s 1 (String.length s) else s in
    if isSign (index s0 0) && (String.length s <? 1)%nat then inr ErrSyntax
    else
      match digitsFrom 0 s with
      | None => inr ErrSyntax
      | Some n => inl (if index s0 0 =? 45 then - n else n)
      end
  else ParseInt s.

End strconv.

(** ** Package [fmt] and the formatting of [time] *)

Module fmt.

Definition decimal (u : Z) : string :=
  NilEmpty.string_of_uint (N.to_uint (Z.to_N u)).

Fixpoint zeros (n : nat) : string :=
  match n with
  | O => ""
  | S n' => String "0" (zeros n')
  end.

(** The verb [%0<wid>d] applied to an [int]: the digits are padded with
    zeros to the width, less one when a sign is written. *)
Definition fmt0d (wid : nat) (x : Z) : string :=
  let negative := x <? 0 in
  let digits := decimal (Z.abs x) in
  let prec := if negative then (wid - 1)%nat else wid in
  let sign : string := if negative then "-"%string else ""%string in
  (sign ++ zeros (prec - String.length digits) ++ digits)%string.

(** [time]'s [appendInt(b, x, width)]. *)
Definition appendInt (x : Z) (width : nat) : string :=
  let sign : string := if x <? 0 then "-"%string else ""%string in
  let digits := decimal (Z.abs x) in
  (sign ++ zeros (width - String.length digits) ++ digits)%string.

End fmt.

Module timefmt.

(** [t.Format("2006-01-02")]: the year on four digits, the month and the
    day of the month on two. *)
Definition Format (t : time.Time) : string :=
  let '(year, month, day, _) := time.absDate (time.abs t) in
  (fmt.appendInt year 4 ++ "-" ++ fmt.appendInt month 2 ++ "-" ++
   fmt.appendInt day 2)%string.

End timefmt.

(** ** Package [airac] *)

Definition format : string := "2006-01-02".

(** [24192e11] nanoseconds: four weeks. *)
Definition cycleDuration : time.Duration := 2419200000000000.

Definition _epoch : time.Time := time.Date 1901 time.January 10 0 0 0 0.

(** The only error the package reports: [fmt.Errorf("illegal AIRAC id %q", id)],
    kept with the identifier it quotes. *)
Inductive error : Type := IllegalAIRACId (id : string).

Module AIRAC.

(** [type AIRAC uint16] *)
Definition t : Type := Z.

(** The values of the type. *)
Definition valid (a : t) : Prop := 0 <= a < 65536.

Definition Effective (a : t) : time.Time :=
  time.Add _epoch (GoInt.int64 (a * cycleDuration)).

Definition Year (a : t) : Z := time.Year (Effective a).

Definition Ordinal (a : t) : Z :=
  Z.quot (time.YearDay (Effective a) - 1) 28 + 1.

Definition String (a : t) : string :=
  (fmt.fmt0d 2 (Z.rem (Year a) 100) ++ fmt.fmt0d 2 (Ordinal a))%string.

Definition LongString (a : t) : string :=
  let n := GoInt.uint16 (a + 1) in
  (fmt.fmt0d 2 (Z.rem (Year a) 100) ++ fmt.fmt0d 2 (Ordinal a) ++
   " (effective: " ++ timefmt.Format (Effective a) ++
   "; expires: " ++ timefmt.Format (time.Add (Effective n) (-1)) ++ ")")%string.

End AIRAC.

(** The Go expression [a + 1] on the type [AIRAC]. *)
Definition succ (a : AIRAC.t) : AIRAC.t := GoInt.uint16 (a + 1).

Definition FromDate (date : time.Time) : AIRAC.t :=
  let a := Z.quot (time.Sub date _epoch) cycleDuration in
  GoInt.uint16 a.

Definition parseIdentifier (yyoo : string) : (Z * Z) + error :=
  let yyoo := strings.TrimSpace yyoo in
  if negb (len yyoo =? 4) then inr (IllegalAIRACId yyoo)
  else
    let sign := index yyoo 0 in
    if (sign =? 43) || (sign =? 45) then inr (IllegalAIRACId yyoo)
    else
      match strconv.Atoi yyoo with
      | inr _ => inr (IllegalAIRACId yyoo)
      | inl yyooInt =>
          let year := Z.quot yyooInt 100 + 1900 in
          let ordinal := Z.rem yyooInt 100 in
          let year := if year <=? 1963 then year + 100 else year in
          inl (year, ordinal)
      end.

Definition FromString (yyoo : string) : AIRAC.t + error :=
  match parseIdentifier yyoo with
  | inr err => inr err
  | inl (year, ordinal) =>
      let lastAiracOfPreviousYear :=
        FromDate (time.Date (year - 1) time.December 31 0 0 0 0) in
      let airac := GoInt.uint16 (lastAiracOfPreviousYear + GoInt.uint16 ordinal) in
      if negb (AIRAC.Year airac =? year) then inr (IllegalAIRACId yyoo)
      else inl airac
  end.

(** [FromStringMust] panics where [FromString] fails; [None] is the panic. *)
Definition FromStringMust (yyoo : string) : option AIRAC.t :=
  match FromString yyoo with
  | inl airac => Some airac
  | inr _ => None
  end.

(** [ByChrono.Less] on a slice [c]; indices out of range panic. *)
Definition Less (c : list AIRAC.t) (i j : nat) : option bool :=
  match nth_error c i, nth_error c j with
  | Some x, Some y => Some (x <? y)
  | _, _ => None
  end.


(** Store [x] at index [i]; the list is unchanged when [i] is out of range. *)
Fixpoint store (c : list AIRAC.t) (i : nat) (x : AIRAC.t) : list AIRAC.t :=
  match c, i with
  | [], _ => []
  | _ :: c', O => x :: c'
  | y :: c', S i' => y :: store c' i' x
  end.

(** [ByChrono.Swap]: [c[i], c[j] = c[j], c[i]]; an index out of range
    panics. *)
Definition Swap (c : list AIRAC.t) (i j : nat) : option (list AIRAC.t) :=
  match nth_error c j, nth_error c i with
  | Some cj, Some ci => Some (store (store c i cj) j ci)
  | _, _ => None
  end.

(** * Properties *)

Local Ltac by_computation := vm_compute; reflexivity.

(** ** The supported range of cycles

    [Effective] multiplies the cycle number by [cycleDuration] in [int64]
    arithmetic.  A cycle is in range when that product does not overflow;
    the source documents the limit as "the upper limit is year 2192". *)

Definition inRange (a : AIRAC.t) : Prop :=
  0 <= a /\ a * cycleDuration <= GoInt.maxInt64.

Definition maxCycle : AIRAC.t := 3812.

Lemma inRange_iff a : inRange a <-> 0 <= a <= maxCycle.
Proof.
  unfold inRange, maxCycle, cycleDuration, GoInt.maxInt64, GoInt.two63. lia.
Qed.

Lemma inRange_valid a : inRange a -> AIRAC.valid a.
Proof. rewrite inRange_iff. unfold AIRAC.valid, maxCycle. lia. Qed.

Lemma maxCycle_year : AIRAC.Year 0 = 1901 /\ AIRAC.Year maxCycle = 2193.
Proof. split; by_computation. Qed.

(** ** Enumerating cycles *)

Definition cyclesTo (n : Z) : list Z := map Z.of_nat (seq 0 (Z.to_nat n)).

Lemma cyclesTo_In n c : 0 <= c < n -> In c (cyclesTo n).
Proof.
  intros H. unfold cyclesTo. apply in_map_iff.
  exists (Z.to_nat c). split; [lia|]. apply in_seq. lia.
Qed.

Lemma forallb_cyclesTo (P : Z -> bool) n :
  forallb P (cyclesTo n) = true -> forall c, 0 <= c < n -> P c = true.
Proof.
  intros H c Hc. rewrite forallb_forall in H. apply H. now apply cyclesTo_In.
Qed.

(** ** Facts about [time] *)

Section TimeFacts.
Import time GoInt.

Lemma epoch_eq : _epoch = mkTime 59958921600 0.
Proof. by_computation. Qed.

(** Adding whole seconds to a time on a second boundary. *)
Lemma Add_seconds e k :
  minInt64 <= e <= maxInt64 -> minInt64 <= e + k <= maxInt64 ->
  Add (mkTime e 0) (k * Second) = mkTime (e + k) 0.
Proof.
  intros He Hk. unfold Add, Second.
  rewrite Z.quot_mul by lia. rewrite Z.rem_mul by lia.
  cbn [nsec ext]. change (0 + int32 0) with 0.
  change (0 >=? 1000000000) with false. change (0 <? 0) with false.
  cbv iota beta. unfold addSec. cbn [nsec ext].
  rewrite (int64_small (e + k)) by assumption.
  destruct (Z.gtb_spec (e + k) e), (Z.gtb_spec k 0); try lia; reflexivity.
Qed.

(** One nanosecond before a time on a second boundary. *)
Lemma Add_minus_nanosecond e :
  minInt64 < e <= maxInt64 ->
  Add (mkTime e 0) (-1) = mkTime (e - 1) 999999999.
Proof.
  intros He. unfold Add. cbn [nsec ext].
  change (Z.quot (-1) 1000000000) with 0.
  change (0 + int32 (Z.rem (-1) 1000000000)) with (-1).
  change (-1 >=? 1000000000) with false. change (-1 <? 0) with true.
  cbv iota beta. unfold addSec. cbn [nsec ext].
  change (0 - 1) with (-1). change (-1 + 1000000000) with 999999999.
  replace (e + -1) with (e - 1) by lia.
  rewrite (int64_small (e - 1)) by lia.
  destruct (Z.gtb_spec (e - 1) e); try lia. reflexivity.
Qed.

(** The difference of two times on second boundaries. *)
Lemma Sub_seconds e k :
  minInt64 <= e <= maxInt64 -> minInt64 <= e + k <= maxInt64 ->
  minInt64 <= k * Second <= maxInt64 ->
  Sub (mkTime (e + k) 0) (mkTime e 0) = k * Second.
Proof.
  intros He Hek Hk. unfold Sub. cbn [ext nsec].
  replace (e + k - e) with k by lia. change (0 - 0) with 0.
  rewrite Z.add_0_r.
  rewrite (int64_small k)
    by (unfold minInt64, maxInt64, two63, Second in *; lia).
  rewrite !(int64_small (k * Second)) by assumption.
  rewrite Add_seconds by assumption.
  unfold Equal. cbn [ext nsec]. rewrite !Z.eqb_refl. reflexivity.
Qed.

(** The calendar date only depends on the day an instant falls in. *)
Lemma absDate_same_day a b :
  a / secondsPerDay = b / secondsPerDay -> absDate a = absDate b.
Proof. intros H. unfold absDate. rewrite H. reflexivity. Qed.

(** The day of the year lies between 1 and 366. *)
Lemma YearDay_range t : 1 <= YearDay t <= 366.
Proof.
  unfold YearDay, absDate. cbv zeta.
  set (d4 := abs t / secondsPerDay - _).
  set (d3 := d4 - _).
  set (d2 := d3 - daysPer4Years * (d3 / daysPer4Years)).
  set (d1 := d2 - 365 * _).
  assert (H : 0 <= d1 <= 365).
  { subst d1. rewrite Z.shiftr_div_pow2 by lia. change (2 ^ 2) with 4.
    assert (H2 : 0 <= d2 < 1461).
    { subst d2. unfold daysPer4Years. change (365 * 4 + 1) with 1461.
      pose proof (Z.mod_pos_bound d3 1461 ltac:(lia)) as Hm.
      rewrite Z.mod_eq in Hm by lia. lia. }
    Z.to_euclidean_division_equations. lia. }
  clearbody d1.
  destruct (isLeap _ && (d1 =? 31 + 29 - 1)); [lia|].
  destruct (_ >=? _); lia.
Qed.

End TimeFacts.

(** ** The effective date of a cycle in range *)

Section EffectiveFacts.
Import time GoInt.

Lemma Effective_inRange a :
  inRange a -> AIRAC.Effective a = mkTime (59958921600 + 2419200 * a) 0.
Proof.
  intros Ha. pose proof (proj1 (inRange_iff a) Ha) as Hb. unfold maxCycle in Hb.
  destruct Ha as [Ha0 Ha1]. unfold AIRAC.Effective.
  rewrite int64_small
    by (unfold minInt64, maxInt64, two63, cycleDuration in *; lia).
  rewrite epoch_eq. unfold cycleDuration.
  replace (a * 2419200000000000) with ((2419200 * a) * Second)
    by (unfold Second; lia).
  apply Add_seconds; unfold minInt64, maxInt64, two63; lia.
Qed.

Lemma succ_inRange a : inRange (a + 1) -> succ a = a + 1.
Proof.
  intros H. apply inRange_iff in H. unfold maxCycle in H.
  apply uint16_small. lia.
Qed.

Lemma Effective_midnight a :
  inRange a -> abs (AIRAC.Effective a) = secondsPerDay * (106751991047901 + 28 * a).
Proof.
  intros Ha. rewrite (Effective_inRange a Ha).
  apply inRange_iff in Ha. unfold maxCycle in Ha.
  unfold abs. cbn [ext]. rewrite uint64_small.
  - unfold internalToAbsolute, absoluteToInternal, secondsPerDay,
      secondsPerHour, secondsPerMinute. lia.
  - unfold internalToAbsolute, absoluteToInternal, two64. lia.
Qed.

End EffectiveFacts.

(** ** Round trip through the effective date *)

(** C1: for every cycle [c] in the supported range, converting [c] to its
    effective date and back with [FromDate] returns [c]. *)
Theorem FromDate_Effective (c : AIRAC.t) :
  inRange c -> FromDate (AIRAC.Effective c) = c.
Proof.
  intros Hc. pose proof (proj1 (inRange_iff c) Hc) as Hb. unfold maxCycle in Hb.
  rewrite (Effective_inRange c Hc). unfold FromDate. rewrite epoch_eq.
  rewrite Sub_seconds
    by (unfold GoInt.minInt64, GoInt.maxInt64, GoInt.two63, time.Second; lia).
  unfold time.Second, cycleDuration.
  replace (2419200 * c * 1000000000) with (c * 2419200000000000) by lia.
  rewrite Z.quot_mul by lia. apply GoInt.uint16_small. lia.
Qed.

Lemma FromDate_Effective_witness :
  inRange 1566 /\ FromDate (AIRAC.Effective 1566) = 1566.
Proof.
  split.
  - apply inRange_iff. unfold maxCycle. lia.
  - apply (FromDate_Effective 1566). apply inRange_iff. unfold maxCycle. lia.
Defined.

Section DateFacts.
Import time GoInt.

(** [time.Date] on the days that follow the epoch: day numbers beyond the
    end of January are carried into the following months and years. *)
Lemma Date_after_epoch k :
  0 <= k <= 28 * maxCycle ->
  Date 1901 January (10 + k) 0 0 0 0 = mkTime (59958921600 + 86400 * k) 0.
Proof.
  unfold maxCycle. intros Hk. unfold Date.
  change (norm 1901 (January - 1) 12) with (1901, 0).
  change (norm 0 0 1000000000) with (0, 0).
  cbv beta iota zeta.
  change (norm 0 0 60) with (0, 0). cbv beta iota zeta.
  change (norm 0 0 60) with (0, 0). cbv beta iota zeta.
  change (norm (10 + k) 0 24) with (10 + k, 0). cbv beta iota zeta.
  replace (daysSinceEpoch 1901) with 106751991047892 by (vm_compute; reflexivity).
  change (daysBefore (0 + 1 - 1)) with 0.
  change (isLeap 1901 && (0 + 1 >=? March)) with false. cbv iota.
  change (int32 0) with 0.
  change (uint64 (0 * secondsPerHour + 0 * secondsPerMinute + 0)) with 0.
  unfold secondsPerDay, secondsPerHour, secondsPerMinute, absoluteToInternal.
  rewrite (uint64_small (10 + k - 1)) by (unfold two64; lia).
  rewrite (uint64_small (106751991047892 + 0 + (10 + k - 1)))
    by (unfold two64; lia).
  rewrite (uint64_small ((106751991047892 + 0 + (10 + k - 1)) * _))
    by (unfold two64; lia).
  rewrite Z.add_0_r.
  rewrite (uint64_small ((106751991047892 + 0 + (10 + k - 1)) * _))
    by (unfold two64; lia).
  rewrite (int64_small ((106751991047892 + 0 + (10 + k - 1)) * _))
    by (unfold minInt64, maxInt64, two63; lia).
  rewrite int64_small by (unfold minInt64, maxInt64, two63; lia).
  f_equal. lia.
Qed.

End DateFacts.

(** ** The ordinal of a cycle *)

(** The 0-based day of the year of an instant. *)
Definition dayOfYear0 (t : time.Time) : Z := time.YearDay t - 1.

(** The claim with the bound 13. *)
Definition Ordinal_at_most_13 (c : AIRAC.t) : Prop :=
  AIRAC.Ordinal c = dayOfYear0 (AIRAC.Effective c) / 28 + 1 /\
  1 <= AIRAC.Ordinal c <= 13.

(** Cycle 1565 is effective on 2020-12-31, day 365 of a leap year: it is the
    fourteenth cycle of 2020. *)
Lemma Ordinal_at_most_13_fails :
  inRange 1565 /\ AIRAC.String 1565 = "2014"%string /\
  AIRAC.Ordinal 1565 = 14 /\ ~ Ordinal_at_most_13 1565.
Proof.
  split; [apply inRange_iff; unfold maxCycle; lia|].
  split; [by_computation|]. split; [by_computation|].
  intros [_ [_ H]]. vm_compute in H. apply H. reflexivity.
Qed.

(** C2 (amended): for every cycle [c], [Ordinal c] is the 0-based day of the
    year of [Effective c] divided by 28, rounded down, plus one, and it lies
    between 1 and 14. *)
Theorem Ordinal_formula_range (c : AIRAC.t) :
  AIRAC.Ordinal c = dayOfYear0 (AIRAC.Effective c) / 28 + 1 /\
  1 <= AIRAC.Ordinal c <= 14.
Proof.
  unfold AIRAC.Ordinal, dayOfYear0.
  pose proof (YearDay_range (AIRAC.Effective c)) as H.
  rewrite Z.quot_div_nonneg by lia.
  split; [reflexivity|].
  Z.to_euclidean_division_equations. lia.
Qed.

(** ** Consecutive cycles *)

(** The claim at a cycle [c]: [c + 1] takes effect later, exactly 28 days
    later. *)
Definition next_is_28_days_later (c : AIRAC.t) : Prop :=
  time.Before (AIRAC.Effective c) (AIRAC.Effective (succ c)) = true /\
  time.Sub (AIRAC.Effective (succ c)) (AIRAC.Effective c) = 28 * (24 * time.Hour).

(** The product for cycle 3813 overflows [int64]: its effective date falls
    in 1608, before that of cycle 3812. *)
Lemma next_is_28_days_later_fails :
  AIRAC.valid 3812 /\ AIRAC.valid (succ 3812) /\ ~ next_is_28_days_later 3812.
Proof.
  split; [unfold AIRAC.valid; lia|].
  split; [vm_compute; split; [discriminate | reflexivity]|].
  intros [H _]. vm_compute in H. discriminate.
Qed.

(** C4 (amended): for every cycle [c] such that [c] and [c + 1] are in the
    supported range, [Effective c] is strictly earlier than
    [Effective (c + 1)], and the difference is exactly 28 days. *)
Theorem Effective_succ (c : AIRAC.t) :
  inRange c -> inRange (c + 1) -> next_is_28_days_later c.
Proof.
  intros Hc Hn. unfold next_is_28_days_later.
  rewrite (succ_inRange c Hn).
  rewrite (Effective_inRange c Hc), (Effective_inRange (c + 1) Hn).
  apply inRange_iff in Hc. unfold maxCycle in Hc.
  split.
  - unfold time.Before. cbn [time.ext time.nsec].
    apply orb_true_iff. left. apply Z.ltb_lt. lia.
  - replace (59958921600 + 2419200 * (c + 1))
      with (59958921600 + 2419200 * c + 2419200) by lia.
    rewrite Sub_seconds
      by (unfold GoInt.minInt64, GoInt.maxInt64, GoInt.two63, time.Second; lia).
    reflexivity.
Qed.

Lemma Effective_succ_witness :
  inRange 1565 /\ inRange (1565 + 1) /\ next_is_28_days_later 1565.
Proof.
  assert (H1 : inRange 1565) by (apply inRange_iff; unfold maxCycle; lia).
  assert (H2 : inRange (1565 + 1)) by (apply inRange_iff; unfold maxCycle; lia).
  split; [exact H1|]. split; [exact H2|].
  exact (Effective_succ 1565 H1 H2).
Defined.

(** ** The effective date as epoch plus 28-day periods *)

(** The instant [c] periods of 28 days after the epoch. *)
Definition epochPlusCycles (c : Z) : time.Time :=
  time.mkTime (time.ext _epoch + c * (28 * time.secondsPerDay)) (time.nsec _epoch).

Definition midnightUTC (t : time.Time) : Prop :=
  time.Clock t = (0, 0, 0) /\ time.nsec t = 0.

(** The claim at a cycle [c]. *)
Definition Effective_is_epoch_plus (c : AIRAC.t) : Prop :=
  AIRAC.Effective c = epochPlusCycles c /\ midnightUTC (AIRAC.Effective c).

(** Cycle 3813 is the first whose product with [cycleDuration] overflows:
    [Effective] returns an instant of 1608-10-12, not at midnight. *)
Lemma Effective_is_epoch_plus_fails :
  AIRAC.valid 3813 /\
  AIRAC.Effective 3813 = time.mkTime 50736587126 290448384 /\
  ~ Effective_is_epoch_plus 3813.
Proof.
  split; [unfold AIRAC.valid; lia|]. split; [by_computation|].
  intros [H _]. vm_compute in H. discriminate.
Qed.

(** C5 (amended): for every cycle [c] in the supported range, [Effective c]
    is the epoch 1901-01-10T00:00:00 UTC plus [c] times 28 days, which is
    the date January [10 + 28 * c] of 1901 as [time.Date] normalises it, at
    midnight UTC. *)
Theorem Effective_epoch_plus (c : AIRAC.t) :
  inRange c ->
  Effective_is_epoch_plus c /\
  AIRAC.Effective c = time.Date 1901 time.January (10 + 28 * c) 0 0 0 0.
Proof.
  intros Hc. pose proof (proj1 (inRange_iff c) Hc) as Hb.
  unfold Effective_is_epoch_plus, midnightUTC, epochPlusCycles.
  repeat split.
  - rewrite (Effective_inRange c Hc), epoch_eq. cbn [time.ext time.nsec].
    unfold time.secondsPerDay, time.secondsPerHour, time.secondsPerMinute.
    f_equal. lia.
  - unfold time.Clock. rewrite (Effective_midnight c Hc).
    rewrite Z.mul_comm, Z.mod_mul by (vm_compute; discriminate).
    reflexivity.
  - rewrite (Effective_inRange c Hc). reflexivity.
  - rewrite (Effective_inRange c Hc), Date_after_epoch by lia.
    f_equal. lia.
Qed.

Lemma Effective_epoch_plus_witness :
  inRange 1566 /\
  Effective_is_epoch_plus 1566 /\
  AIRAC.Effective 1566 = time.Date 1901 time.January (10 + 28 * 1566) 0 0 0 0.
Proof.
  assert (H : inRange 1566) by (apply inRange_iff; unfold maxCycle; lia).
  split; [exact H|]. exact (Effective_epoch_plus 1566 H).
Defined.

(** ** The long form *)

Lemma append_assoc (s1 s2 s3 : string) :
  ((s1 ++ s2) ++ s3 = s1 ++ (s2 ++ s3))%string.
Proof.
  induction s1 as [|ch s1 IH]; cbn [append]; [reflexivity|].
  now rewrite IH.
Qed.

(** The claim at a cycle [c]: the expiry date that [LongString c] prints is
    the calendar day of [Effective (c + 1)] minus one day, the day before
    the effective date that [LongString (c + 1)] prints. *)
Definition expires_day_before_next (c : AIRAC.t) : Prop :=
  let next := AIRAC.Effective (succ c) in
  AIRAC.LongString c =
    (AIRAC.String c ++ " (effective: " ++ timefmt.Format (AIRAC.Effective c) ++
     "; expires: " ++ timefmt.Format (time.Add next (- (24 * time.Hour))) ++
     ")")%string /\
  exists rest,
    AIRAC.LongString (succ c) =
      (AIRAC.String (succ c) ++ " (effective: " ++ timefmt.Format next ++
       rest)%string.

(** The effective date of cycle 3813 is not at midnight, so one nanosecond
    earlier is the same calendar day: [LongString 3812] prints the expiry
    date 1608-10-12, the effective date that [LongString 3813] prints. *)
Lemma expires_day_before_next_fails :
  AIRAC.valid 3812 /\
  AIRAC.LongString 3812 =
    "9304 (effective: 2193-04-04; expires: 1608-10-12)"%string /\
  AIRAC.LongString (succ 3812) =
    "0811 (effective: 1608-10-12; expires: 1608-11-09)"%string /\
  ~ expires_day_before_next 3812.
Proof.
  split; [unfold AIRAC.valid; lia|].
  split; [by_computation|]. split; [by_computation|].
  intros [H _]. vm_compute in H. discriminate.
Qed.

(** C8 (amended): for every cycle [c] such that [c] and [c + 1] are in the
    supported range, the expiry date printed by [LongString c] is the
    calendar day of [Effective (c + 1)] minus one day, formatted YYYY-MM-DD,
    and [LongString (c + 1)] prints the day of [Effective (c + 1)] as its
    effective date. *)
Theorem LongString_expires (c : AIRAC.t) :
  inRange c -> inRange (c + 1) -> expires_day_before_next c.
Proof.
  intros Hc Hn. unfold expires_day_before_next. cbv zeta.
  assert (Hday :
    timefmt.Format (time.Add (AIRAC.Effective (succ c)) (-1)) =
    timefmt.Format (time.Add (AIRAC.Effective (succ c)) (- (24 * time.Hour)))).
  { rewrite (succ_inRange c Hn).
    pose proof (Effective_midnight (c + 1) Hn) as Hm.
    rewrite (Effective_inRange (c + 1) Hn) in Hm |- *.
    apply inRange_iff in Hn. unfold maxCycle in Hn.
    rewrite Add_minus_nanosecond
      by (unfold GoInt.minInt64, GoInt.maxInt64, GoInt.two63; lia).
    replace (- (24 * time.Hour)) with (-86400 * time.Second) by reflexivity.
    rewrite Add_seconds
      by (unfold GoInt.minInt64, GoInt.maxInt64, GoInt.two63; lia).
    unfold timefmt.Format.
    rewrite (absDate_same_day
               (time.abs (time.mkTime (59958921600 + 2419200 * (c + 1) - 1) 999999999))
               (time.abs (time.mkTime (59958921600 + 2419200 * (c + 1) + -86400) 0)));
      [reflexivity|].
    unfold time.abs in Hm |- *. cbn [time.ext] in Hm |- *.
    unfold time.internalToAbsolute, time.absoluteToInternal in Hm |- *.
    rewrite GoInt.uint64_small in Hm by (unfold GoInt.two64; lia).
    rewrite !GoInt.uint64_small by (unfold GoInt.two64; lia).
    unfold time.secondsPerDay, time.secondsPerHour, time.secondsPerMinute
      in Hm |- *.
    change (24 * (60 * 60)) with 86400 in Hm |- *.
    set (e := 59958921600 + 2419200 * (c + 1)) in Hm |- *.
    set (m := 106751991047901 + 28 * (c + 1)) in Hm.
    replace (e - 1 + - -9223371966579724800) with (86400 * (m - 1) + 86399) by lia.
    replace (e + -86400 + - -9223371966579724800) with (86400 * (m - 1) + 0) by lia.
    rewrite !(Z.mul_comm 86400), !Z.div_add_l by lia. reflexivity. }
  split.
  - unfold AIRAC.LongString, AIRAC.String. cbv zeta. fold (succ c).
    rewrite Hday, append_assoc. reflexivity.
  - eexists. unfold AIRAC.LongString, AIRAC.String. cbv zeta.
    rewrite append_assoc. reflexivity.
Qed.

Lemma LongString_expires_witness :
  inRange 1566 /\ inRange (1566 + 1) /\ expires_day_before_next 1566.
Proof.
  assert (H1 : inRange 1566) by (apply inRange_iff; unfold maxCycle; lia).
  assert (H2 : inRange (1566 + 1)) by (apply inRange_iff; unfold maxCycle; lia).
  split; [exact H1|]. split; [exact H2|].
  exact (LongString_expires 1566 H1 H2).
Defined.

(** ** Identifiers

    What the specification says of an identifier, stated on the trimmed
    string. *)

Definition isDigit (c : ascii) : bool := (48 <=? byte c) && (byte c <=? 57).

Fixpoint allDigits (s : string) : bool :=
  match s with
  | EmptyString => true
  | String c s' => isDigit c && allDigits s'
  end.

Definition hasSign (s : string) : bool :=
  match s with
  | EmptyString => false
  | String c _ => (byte c =? 43) || (byte c =? 45)
  end.

(** The value of a base-10 numeral, continuing from [n]. *)
Fixpoint decimalValueFrom (n : Z) (s : string) : Z :=
  match s with
  | EmptyString => n
  | String c s' => decimalValueFrom (n * 10 + (byte c - 48)) s'
  end.

Definition decimalValue (s : string) : Z := decimalValueFrom 0 s.

(** Four decimal digits, no sign. *)
Definition wellFormed (s : string) : bool :=
  (String.length s =? 4)%nat && negb (hasSign s) && allDigits s.

(** The year resolution rule on the two-digit year suffix. *)
Definition resolveYear (yy : Z) : Z :=
  let year := yy + 1900 in
  if year <=? 1963 then year + 100 else year.

Definition identYear (s : string) : Z := resolveYear (decimalValue s / 100).

Definition identOrdinal (s : string) : Z := decimalValue s mod 100.

(** The two steps of [FromString] after parsing: the last cycle of the
    previous year, and the candidate cycle, that cycle plus the ordinal. *)
Definition lastOfPreviousYear (year : Z) : AIRAC.t :=
  FromDate (time.Date (year - 1) time.December 31 0 0 0 0).

Definition candidateFrom (last : AIRAC.t) (ordinal : Z) : AIRAC.t :=
  GoInt.uint16 (last + GoInt.uint16 ordinal).

Lemma FromString_candidate (yyoo : string) :
  FromString yyoo =
  match parseIdentifier yyoo with
  | inr err => inr err
  | inl (year, ordinal) =>
      if AIRAC.Year (candidateFrom (lastOfPreviousYear year) ordinal) =? year
      then inl (candidateFrom (lastOfPreviousYear year) ordinal)
      else inr (IllegalAIRACId yyoo)
  end.
Proof.
  unfold FromString, candidateFrom, lastOfPreviousYear.
  destruct (parseIdentifier yyoo) as [[year ordinal]|err]; [|reflexivity].
  cbv zeta. destruct (_ =? year); reflexivity.
Qed.

Section ParseFacts.

Lemma byte_range c : 0 <= byte c < 256.
Proof.
  unfold byte. pose proof (N_ascii_bounded c) as H. lia.
Qed.

Lemma isDigit_iff c : isDigit c = true <-> 48 <= byte c <= 57.
Proof. unfold isDigit. rewrite andb_true_iff, !Z.leb_le. tauto. Qed.

Lemma digitsFrom_spec s : forall n,
  strconv.digitsFrom n s =
  if allDigits s then Some (decimalValueFrom n s) else None.
Proof.
  induction s as [|c s IH]; intros n; [reflexivity|].
  cbn [strconv.digitsFrom allDigits decimalValueFrom].
  pose proof (byte_range c) as Hc.
  destruct (isDigit c) eqn:Hd.
  - apply isDigit_iff in Hd.
    rewrite (Z.mod_small (byte c - 48)) by lia.
    destruct (Z.gtb_spec (byte c - 48) 9); [lia|].
    rewrite IH. reflexivity.
  - assert (Hn : ~ (48 <= byte c <= 57))
      by (rewrite <- isDigit_iff, Hd; discriminate).
    destruct (Z.gtb_spec ((byte c - 48) mod 256) 9) as [|Hle]; [reflexivity|].
    exfalso. apply Hn.
    destruct (Z.lt_ge_cases (byte c) 48) as [Hlt|Hge].
    + replace (byte c - 48) with (byte c + 208 + (-1) * 256) in Hle by lia.
      rewrite Z.mod_add, Z.mod_small in Hle by lia. lia.
    + rewrite Z.mod_small in Hle by lia. lia.
Qed.

(** A well-formed identifier is four digit characters. *)
Lemma wellFormed_inv t :
  wellFormed t = true ->
  exists c1 c2 c3 c4,
    t = String c1 (String c2 (String c3 (String c4 EmptyString))) /\
    48 <= byte c1 <= 57 /\ 48 <= byte c2 <= 57 /\
    48 <= byte c3 <= 57 /\ 48 <= byte c4 <= 57.
Proof.
  unfold wellFormed. rewrite !andb_true_iff. intros [[Hl _] Hd].
  destruct t as [|c1 [|c2 [|c3 [|c4 [|c5 t]]]]]; try discriminate Hl.
  cbn [allDigits] in Hd. rewrite !andb_true_iff in Hd.
  destruct Hd as (H1 & H2 & H3 & H4 & _).
  exists c1, c2, c3, c4. rewrite <- !isDigit_iff. auto.
Qed.

Lemma decimalValue_range t :
  wellFormed t = true -> 0 <= decimalValue t <= 9999.
Proof.
  intros H. destruct (wellFormed_inv t H) as (c1 & c2 & c3 & c4 & -> & H1 & H2 & H3 & H4).
  unfold decimalValue. cbn [decimalValueFrom]. lia.
Qed.

Lemma parseIdentifier_wellFormed s :
  wellFormed (strings.TrimSpace s) = true ->
  parseIdentifier s =
  inl (resolveYear (decimalValue (strings.TrimSpace s) / 100),
       decimalValue (strings.TrimSpace s) mod 100).
Proof.
  intros H. pose proof (decimalValue_range _ H) as Hv.
  unfold parseIdentifier, resolveYear.
  cbv zeta. set (t := strings.TrimSpace s) in *.
  unfold wellFormed in H. rewrite !andb_true_iff in H.
  destruct H as [[Hl Hs] Hd]. apply Nat.eqb_eq in Hl.
  apply negb_true_iff in Hs.
  unfold len. rewrite Hl. change (negb (Z.of_nat 4 =? 4)) with false.
  cbv iota.
  assert (Hi : ((index t 0 =? 43) || (index t 0 =? 45)) = false).
  { destruct t; [reflexivity | exact Hs]. }
  rewrite Hi. unfold strconv.Atoi. rewrite Hl.
  change ((0 <? 4)%nat && (4 <? 19)%nat) with true. cbv iota zeta.
  assert (Hg : strconv.isSign (index t 0) = false).
  { unfold strconv.isSign. rewrite orb_comm. exact Hi. }
  rewrite Hg. cbn [andb]. rewrite digitsFrom_spec, Hd.
  assert (H45 : (index t 0 =? 45) = false)
    by (apply orb_false_iff in Hi; tauto).
  rewrite H45. fold (decimalValue t).
  rewrite Z.quot_div_nonneg, Z.rem_mod_nonneg by lia. reflexivity.
Qed.

Lemma parseIdentifier_illFormed s :
  wellFormed (strings.TrimSpace s) = false ->
  parseIdentifier s = inr (IllegalAIRACId (strings.TrimSpace s)).
Proof.
  intros H. unfold parseIdentifier. cbv zeta.
  set (t := strings.TrimSpace s) in *. unfold len.
  destruct (Nat.eqb_spec (String.length t) 4) as [Hl|Hl].
  - rewrite Hl. change (negb (Z.of_nat 4 =? 4)) with false. cbv iota.
    destruct ((index t 0 =? 43) || (index t 0 =? 45)) eqn:Hi; [reflexivity|].
    assert (Hs : hasSign t = false) by (destruct t; [reflexivity | exact Hi]).
    unfold wellFormed in H. rewrite Hl, Hs in H. cbn in H.
    unfold strconv.Atoi. rewrite Hl.
    change ((0 <? 4)%nat && (4 <? 19)%nat) with true. cbv iota zeta.
    assert (Hg : strconv.isSign (index t 0) = false).
    { unfold strconv.isSign. rewrite orb_comm. exact Hi. }
    rewrite Hg. cbn [andb]. rewrite digitsFrom_spec, H. reflexivity.
  - assert (Hz : (Z.of_nat (String.length t) =? 4) = false)
      by (apply Z.eqb_neq; lia).
    rewrite Hz. reflexivity.
Qed.

End ParseFacts.

(** ** The candidate cycle, checked on every year suffix and ordinal *)

Section CandidateFacts.

Lemma resolveYear_range yy : 0 <= yy <= 99 -> 1964 <= resolveYear yy <= 2063.
Proof.
  intros H. unfold resolveYear. cbv zeta.
  destruct (Z.leb_spec (yy + 1900) 1963); lia.
Qed.

Lemma resolveYear_rem year :
  1964 <= year <= 2063 -> resolveYear (Z.rem year 100) = year.
Proof.
  intros H. rewrite Z.rem_mod_nonneg by lia. unfold resolveYear. cbv zeta.
  destruct (Z.leb_spec (year mod 100 + 1900) 1963);
    Z.to_euclidean_division_equations; lia.
Qed.

Lemma Ordinal_bounds c : 1 <= AIRAC.Ordinal c <= 14.
Proof.
  unfold AIRAC.Ordinal.
  pose proof (YearDay_range (AIRAC.Effective c)) as H.
  rewrite Z.quot_div_nonneg by lia.
  Z.to_euclidean_division_equations. lia.
Qed.

Lemma candidateFrom_range last o : 0 <= candidateFrom last o < 65536.
Proof. unfold candidateFrom. apply GoInt.uint16_range. Qed.

(** [a] implies [b tt]; [b] is only evaluated when [a] holds. *)
Definition implies (a : bool) (b : unit -> bool) : bool :=
  if a then b tt else true.

Lemma implies_elim a b : implies a b = true -> a = true -> b tt = true.
Proof. unfold implies. intros H Ha. rewrite Ha in H. exact H. Qed.

Definition inWindow (year : Z) : bool := (1964 <=? year) && (year <=? 2063).

Lemma inWindow_true year : 1964 <= year <= 2063 -> inWindow year = true.
Proof.
  intros H. unfold inWindow. apply andb_true_iff. rewrite !Z.leb_le. exact H.
Qed.

(** Within the identifier window, the year and the ordinal of a cycle in
    range lead back to it. *)
Lemma roundtrip_all :
  forallb
    (fun c =>
       implies (inWindow (AIRAC.Year c))
         (fun _ =>
            candidateFrom (lastOfPreviousYear (AIRAC.Year c)) (AIRAC.Ordinal c)
            =? c))
    (cyclesTo (maxCycle + 1)) = true.
Proof. by_computation. Qed.

Lemma candidate_roundtrip c :
  inRange c -> 1964 <= AIRAC.Year c <= 2063 ->
  candidateFrom (lastOfPreviousYear (AIRAC.Year c)) (AIRAC.Ordinal c) = c.
Proof.
  intros Hc Hy. apply inRange_iff in Hc.
  assert (Hx : 0 <= c < maxCycle + 1) by lia.
  pose proof (forallb_cyclesTo _ _ roundtrip_all c Hx) as H. cbv beta in H.
  apply Z.eqb_eq.
  pose proof (inWindow_true _ Hy) as Hw.
  pose proof (implies_elim _ _ H Hw) as H2. cbv beta in H2. exact H2.
Qed.

(** For every year suffix: whenever the candidate for an ordinal below
    100 passes the year check, it is in range and has that ordinal. *)
Lemma sound_all :
  forallb
    (fun yy =>
       let last := lastOfPreviousYear (resolveYear yy) in
       forallb
         (fun o =>
            implies (AIRAC.Year (candidateFrom last o) =? resolveYear yy)
              (fun _ =>
                 (candidateFrom last o <=? maxCycle) &&
                 (AIRAC.Ordinal (candidateFrom last o) =? o)))
         (cyclesTo 100))
    (cyclesTo 100) = true.
Proof. by_computation. Qed.

Lemma candidate_sound yy o :
  0 <= yy <= 99 -> 0 <= o <= 99 ->
  AIRAC.Year (candidateFrom (lastOfPreviousYear (resolveYear yy)) o)
    = resolveYear yy ->
  inRange (candidateFrom (lastOfPreviousYear (resolveYear yy)) o) /\
  AIRAC.Ordinal (candidateFrom (lastOfPreviousYear (resolveYear yy)) o) = o.
Proof.
  intros Hyy' Ho' Hy.
  assert (Hyy : 0 <= yy < 100) by lia.
  assert (Ho : 0 <= o < 100) by lia.
  pose proof (forallb_cyclesTo _ _ sound_all yy Hyy) as H.
  cbv beta zeta in H.
  pose proof (forallb_cyclesTo _ _ H o Ho) as H'. cbv beta in H'.
  apply Z.eqb_eq in Hy.
  pose proof (implies_elim _ _ H' Hy) as H2. cbv beta in H2.
  apply andb_true_iff in H2. destruct H2 as [H1 H2].
  apply Z.leb_le in H1. apply Z.eqb_eq in H2.
  split; [|exact H2]. apply inRange_iff.
  pose proof (candidateFrom_range (lastOfPreviousYear (resolveYear yy)) o) as Hr.
  clear - H1 Hr. lia.
Qed.

(** With ordinal 0 the candidate is the last cycle of the previous year. *)
Lemma previousYear_all :
  forallb
    (fun yy =>
       AIRAC.Year (candidateFrom (lastOfPreviousYear (resolveYear yy)) 0)
       =? resolveYear yy - 1)
    (cyclesTo 100) = true.
Proof. by_computation. Qed.

Lemma candidate_zero yy :
  0 <= yy <= 99 ->
  AIRAC.Year (candidateFrom (lastOfPreviousYear (resolveYear yy)) 0)
  = resolveYear yy - 1.
Proof.
  intros H'. assert (H : 0 <= yy < 100) by lia. apply Z.eqb_eq.
  exact (forallb_cyclesTo _ _ previousYear_all yy H).
Qed.

(** Parsing what [%02d%02d] prints. *)
Lemma parses_all :
  forallb
    (fun v =>
       match
         parseIdentifier (fmt.fmt0d 2 (v / 100) ++ fmt.fmt0d 2 (v mod 100))
       with
       | inl (y, o) => (y =? resolveYear (v / 100)) && (o =? v mod 100)
       | inr _ => false
       end)
    (cyclesTo 10000) = true.
Proof. by_computation. Qed.

Lemma parseIdentifier_fmt yy oo :
  0 <= yy <= 99 -> 0 <= oo <= 99 ->
  parseIdentifier (fmt.fmt0d 2 yy ++ fmt.fmt0d 2 oo) = inl (resolveYear yy, oo).
Proof.
  intros Hy Ho.
  assert (Hv : 0 <= 100 * yy + oo < 10000) by lia.
  pose proof (forallb_cyclesTo _ _ parses_all (100 * yy + oo) Hv) as H.
  cbv beta in H.
  replace ((100 * yy + oo) / 100) with yy in H
    by (Z.to_euclidean_division_equations; lia).
  replace ((100 * yy + oo) mod 100) with oo in H
    by (Z.to_euclidean_division_equations; lia).
  destruct (parseIdentifier _) as [[y o]|]; [|discriminate].
  apply andb_true_iff in H. destruct H as [H1 H2].
  apply Z.eqb_eq in H1. apply Z.eqb_eq in H2. now subst.
Qed.

End CandidateFacts.

(** ** The year resolution rule *)

(** C7: the parser maps the two-digit year suffix [yy] of a well-formed
    identifier to [yy + 1900], plus 100 when that is at most 1963; "6401"
    resolves to year 1964, ordinal 1, "0001" to year 2000, ordinal 1, and
    "9913" to a cycle of 1999. *)
Theorem year_resolution :
  (forall s,
     wellFormed (strings.TrimSpace s) = true ->
     parseIdentifier s =
     inl (resolveYear (decimalValue (strings.TrimSpace s) / 100),
          decimalValue (strings.TrimSpace s) mod 100)) /\
  (exists c, FromString "6401"%string = inl c /\
             AIRAC.Year c = 1964 /\ AIRAC.Ordinal c = 1) /\
  (exists c, FromString "0001"%string = inl c /\
             AIRAC.Year c = 2000 /\ AIRAC.Ordinal c = 1) /\
  (exists c, FromString "9913"%string = inl c /\ AIRAC.Year c = 1999).
Proof.
  split; [exact parseIdentifier_wellFormed|].
  split; [exists 822; repeat split; by_computation|].
  split; [exists 1292; repeat split; by_computation|].
  exists 1291; repeat split; by_computation.
Qed.

Lemma year_resolution_witness :
  wellFormed (strings.TrimSpace " 6401 "%string) = true /\
  parseIdentifier " 6401 "%string = inl (1964, 1).
Proof.
  split; [reflexivity|].
  exact (proj1 year_resolution " 6401 "%string eq_refl).
Defined.

(** ** The cycle of 2021-01-28 *)

(** C9: the cycle that [FromDate] returns for 2021-01-28 has the short
    string "2101": its year is 2021 and its ordinal is 1. *)
Theorem cycle_of_2021_01_28 :
  let c := FromDate (time.Date 2021 time.January 28 0 0 0 0) in
  AIRAC.String c = "2101"%string /\ AIRAC.Year c = 2021 /\ AIRAC.Ordinal c = 1.
Proof. cbv zeta. repeat split; by_computation. Qed.

(** ** Ordinal zero *)

(** C10: for every input whose trimmed form is four digits ending in "00",
    [FromString] fails: the candidate cycle is the last cycle of the
    previous year, so its year is the resolved year minus one. *)
Theorem ordinal_zero_rejected (s : string) :
  wellFormed (strings.TrimSpace s) = true ->
  identOrdinal (strings.TrimSpace s) = 0 ->
  FromString s = inr (IllegalAIRACId s) /\
  AIRAC.Year
    (candidateFrom (lastOfPreviousYear (identYear (strings.TrimSpace s))) 0)
  = identYear (strings.TrimSpace s) - 1.
Proof.
  unfold identOrdinal, identYear. intros Hw Ho.
  pose proof (decimalValue_range _ Hw) as Hv.
  set (t := strings.TrimSpace s) in *.
  assert (Hyy : 0 <= decimalValue t / 100 <= 99)
    by (clear - Hv; Z.to_euclidean_division_equations; lia).
  pose proof (candidate_zero (decimalValue t / 100) Hyy) as Hz.
  split; [|exact Hz].
  rewrite FromString_candidate. subst t.
  rewrite (parseIdentifier_wellFormed s Hw). cbv beta iota.
  rewrite Ho, Hz.
  assert (Hne : (resolveYear (decimalValue (strings.TrimSpace s) / 100) - 1 =?
                 resolveYear (decimalValue (strings.TrimSpace s) / 100)) = false)
    by (apply Z.eqb_neq; lia).
  rewrite Hne. reflexivity.
Qed.

Lemma ordinal_zero_rejected_witness :
  wellFormed (strings.TrimSpace "2100"%string) = true /\
  identOrdinal (strings.TrimSpace "2100"%string) = 0 /\
  FromString "2100"%string = inr (IllegalAIRACId "2100"%string).
Proof.
  split; [reflexivity|]. split; [reflexivity|].
  exact (proj1 (ordinal_zero_rejected "2100"%string eq_refl eq_refl)).
Defined.

(** ** Round trip through the short form *)

(** The claim at a cycle [c]. *)
Definition short_roundtrip (c : AIRAC.t) : Prop :=
  FromString (AIRAC.String c) = inl c.

(** The product for cycle 8447 overflows and its effective date falls in
    1964: it prints as "6401", which parses to cycle 822. *)
Lemma short_roundtrip_fails :
  AIRAC.valid 8447 /\ 1964 <= AIRAC.Year 8447 <= 2063 /\
  AIRAC.String 8447 = "6401"%string /\ FromString "6401"%string = inl 822 /\
  ~ short_roundtrip 8447.
Proof.
  split; [unfold AIRAC.valid; lia|].
  split; [vm_compute; split; discriminate|].
  split; [by_computation|]. split; [by_computation|].
  intros H. vm_compute in H. discriminate.
Qed.

(** C3 (amended): for every cycle [c] in the supported range whose year is
    within 1964..2063, [FromString] applied to the short string of [c]
    succeeds and returns [c]. *)
Theorem FromString_String (c : AIRAC.t) :
  inRange c -> 1964 <= AIRAC.Year c <= 2063 -> short_roundtrip c.
Proof.
  intros Hc Hy. unfold short_roundtrip, AIRAC.String.
  rewrite FromString_candidate.
  assert (Hyy : 0 <= Z.rem (AIRAC.Year c) 100 <= 99).
  { rewrite Z.rem_mod_nonneg by lia.
    pose proof (Z.mod_pos_bound (AIRAC.Year c) 100 ltac:(lia)). lia. }
  assert (Hoo : 0 <= AIRAC.Ordinal c <= 99)
    by (pose proof (Ordinal_bounds c); lia).
  rewrite (parseIdentifier_fmt _ _ Hyy Hoo). cbv beta iota.
  rewrite (resolveYear_rem _ Hy).
  rewrite (candidate_roundtrip c Hc Hy).
  rewrite Z.eqb_refl. reflexivity.
Qed.

Lemma FromString_String_witness :
  inRange 1566 /\ 1964 <= AIRAC.Year 1566 <= 2063 /\ short_roundtrip 1566.
Proof.
  assert (H1 : inRange 1566) by (apply inRange_iff; unfold maxCycle; lia).
  assert (H2 : 1964 <= AIRAC.Year 1566 <= 2063)
    by (vm_compute; split; discriminate).
  split; [exact H1|]. split; [exact H2|].
  exact (FromString_String 1566 H1 H2).
Defined.

(** ** What [FromString] rejects *)

(** An ordinal belongs to a year when a cycle in the supported range has
    that year and that ordinal. *)
Definition ordinalInYear (year ordinal : Z) : Prop :=
  exists c, inRange c /\ AIRAC.Year c = year /\ AIRAC.Ordinal c = ordinal.

(** The inputs that must be rejected: after trimming, the length is not 4,
    or there is a leading sign, or a character is not a decimal digit, or
    the ordinal does not belong to the resolved year. *)
Definition rejected (s : string) : Prop :=
  let t := strings.TrimSpace s in
  String.length t <> 4%nat \/ hasSign t = true \/ allDigits t = false \/
  ~ ordinalInYear (identYear t) (identOrdinal t).

Section RejectFacts.

Lemma wellFormed_false t :
  wellFormed t = false ->
  String.length t <> 4%nat \/ hasSign t = true \/ allDigits t = false.
Proof.
  unfold wellFormed. intros H.
  destruct (Nat.eqb_spec (String.length t) 4) as [Hl|Hl]; [|now left].
  right. destruct (hasSign t); [now left|]. right.
  cbn [negb andb] in H. exact H.
Qed.

Lemma wellFormed_true t :
  wellFormed t = true ->
  String.length t = 4%nat /\ hasSign t = false /\ allDigits t = true.
Proof.
  unfold wellFormed. rewrite !andb_true_iff, Nat.eqb_eq, negb_true_iff. tauto.
Qed.

Lemma identifier_bounds t :
  wellFormed t = true ->
  0 <= decimalValue t / 100 <= 99 /\ 0 <= decimalValue t mod 100 <= 99.
Proof.
  intros H. pose proof (decimalValue_range t H) as Hv.
  Z.to_euclidean_division_equations. lia.
Qed.

(** A success comes from a well-formed identifier whose ordinal belongs
    to the resolved year. *)
Lemma FromString_inl s c :
  FromString s = inl c ->
  wellFormed (strings.TrimSpace s) = true /\
  ordinalInYear (identYear (strings.TrimSpace s))
                (identOrdinal (strings.TrimSpace s)).
Proof.
  unfold identYear, identOrdinal. rewrite FromString_candidate. intros H.
  destruct (wellFormed (strings.TrimSpace s)) eqn:Hw.
  - split; [reflexivity|].
    destruct (identifier_bounds _ Hw) as [Hyy Hoo].
    rewrite (parseIdentifier_wellFormed s Hw) in H. cbv beta iota in H.
    set (yy := decimalValue (strings.TrimSpace s) / 100) in *.
    set (oo := decimalValue (strings.TrimSpace s) mod 100) in *.
    destruct (Z.eqb_spec
                (AIRAC.Year (candidateFrom (lastOfPreviousYear (resolveYear yy)) oo))
                (resolveYear yy)) as [Hy|Hy]; [|discriminate H].
    destruct (candidate_sound yy oo Hyy Hoo Hy) as [Hr Ho].
    exists (candidateFrom (lastOfPreviousYear (resolveYear yy)) oo).
    split; [exact Hr|]. split; [exact Hy | exact Ho].
  - rewrite (parseIdentifier_illFormed s Hw) in H. discriminate H.
Qed.

(** A failure comes from an input that must be rejected. *)
Lemma FromString_inr s e : FromString s = inr e -> rejected s.
Proof.
  unfold rejected, identYear, identOrdinal. cbv zeta.
  rewrite FromString_candidate. intros H.
  destruct (wellFormed (strings.TrimSpace s)) eqn:Hw.
  - right. right. right. intros (c & Hr & Hy & Ho).
    destruct (identifier_bounds _ Hw) as [Hyy Hoo].
    rewrite (parseIdentifier_wellFormed s Hw) in H. cbv beta iota in H.
    set (yy := decimalValue (strings.TrimSpace s) / 100) in *.
    set (oo := decimalValue (strings.TrimSpace s) mod 100) in *.
    pose proof (resolveYear_range yy Hyy) as Hwin. rewrite <- Hy in Hwin.
    pose proof (candidate_roundtrip c Hr Hwin) as Hc.
    rewrite Hy, Ho in Hc. rewrite Hc, Hy, Z.eqb_refl in H. discriminate H.
  - destruct (wellFormed_false _ Hw) as [Hl|[Hs|Hd]]; tauto.
Qed.

End RejectFacts.

(** C6: [FromString] fails, with the illegal-identifier error, exactly on
    the inputs that after trimming are not of length 4, or have a leading
    sign, or are not entirely decimal digits, or whose ordinal does not
    belong to the resolved year; it succeeds on every other input. *)
Theorem FromString_rejects (s : string) :
  (rejected s <-> exists id, FromString s = inr (IllegalAIRACId id)) /\
  (~ rejected s <-> exists c, FromString s = inl c).
Proof.
  assert (Hok : forall c, FromString s = inl c -> ~ rejected s).
  { intros c H. destruct (FromString_inl s c H) as [Hw Ho].
    destruct (wellFormed_true _ Hw) as (Hl & Hs & Hd).
    unfold rejected. cbv zeta. rewrite Hs, Hd.
    intros [Hx|[Hx|[Hx|Hx]]]; [tauto | discriminate | discriminate | tauto]. }
  split; split.
  - intros Hr. destruct (FromString s) as [c|[id]] eqn:H.
    + exfalso. exact (Hok c eq_refl Hr).
    + exists id. reflexivity.
  - intros [id H]. exact (FromString_inr s _ H).
  - intros Hr. destruct (FromString s) as [c|e] eqn:H.
    + exists c. reflexivity.
    + exfalso. exact (Hr (FromString_inr s e H)).
  - intros [c H]. exact (Hok c H).
Qed.

Lemma FromString_rejects_witness :
  rejected "9914"%string /\ ~ rejected " 2014 "%string.
Proof.
  split.
  - apply (proj2 (proj1 (FromString_rejects "9914"%string))).
    exists "9914"%string. vm_compute. reflexivity.
  - apply (proj2 (proj2 (FromString_rejects " 2014 "%string))).
    exists 1565. vm_compute. reflexivity.
Defined.

(** * Further properties of the package *)

(** ** [FromDate] on every instant *)

(** The instants [time.Time] can hold: nanoseconds within the second. *)
Definition validTime (t : time.Time) : Prop := 0 <= time.nsec t < 1000000000.

(** Nanoseconds from the epoch to [t], as an integer. *)
Definition sinceEpoch (t : time.Time) : Z :=
  (time.ext t - time.ext _epoch) * 1000000000 + time.nsec t.

(** A [Duration] clamped to [int64], as [time.Sub] saturates. *)
Definition clamp (d : Z) : Z :=
  Z.max GoInt.minInt64 (Z.min GoInt.maxInt64 d).

Section SubFacts.
Import time GoInt.

Lemma int64_mod z : int64 z mod two64 = z mod two64.
Proof.
  unfold int64. rewrite Zminus_mod, Z.mod_mod by (unfold two64; lia).
  rewrite <- Zminus_mod. f_equal. lia.
Qed.

Lemma int64_congr a b : a mod two64 = b mod two64 -> int64 a = int64 b.
Proof.
  intros H. unfold int64.
  rewrite (Zplus_mod a), H, <- Zplus_mod. reflexivity.
Qed.

Lemma int64_mul_l a b : int64 (int64 a * b) = int64 (a * b).
Proof.
  apply int64_congr.
  rewrite Zmult_mod, int64_mod, <- Zmult_mod. reflexivity.
Qed.

Lemma int64_add_l a b : int64 (int64 a + b) = int64 (a + b).
Proof.
  apply int64_congr.
  rewrite Zplus_mod, int64_mod, <- Zplus_mod. reflexivity.
Qed.

(** Adding any [Duration] to the epoch is exact. *)
Lemma Add_epoch d :
  minInt64 <= d <= maxInt64 ->
  exists e n,
    Add (mkTime 59958921600 0) d = mkTime e n /\
    0 <= n < 1000000000 /\
    (e - 59958921600) * 1000000000 + n = d.
Proof.
  unfold minInt64, maxInt64, two63. intros Hd. unfold Add. cbn [ext nsec].
  pose proof (Z.quot_rem' d 1000000000) as Hqr.
  assert (Hr : -1000000000 < Z.rem d 1000000000 < 1000000000).
  { pose proof (Z.rem_bound_abs d 1000000000 ltac:(lia)). lia. }
  set (q := Z.quot d 1000000000) in *. set (r := Z.rem d 1000000000) in *.
  assert (Hi : int32 r = r).
  { unfold int32, two31, two32. rewrite Z.mod_small by lia. lia. }
  rewrite Hi, Z.add_0_l.
  assert (Hq : -9223372037 <= q <= 9223372037) by lia.
  destruct (Z.geb_spec r 1000000000); [lia|].
  destruct (Z.ltb_spec r 0).
  - unfold addSec. cbn [ext nsec].
    rewrite (int64_small (59958921600 + (q - 1)))
      by (unfold minInt64, maxInt64, two63; lia).
    exists (59958921600 + (q - 1)), (r + 1000000000).
    split; [|lia].
    destruct (Z.gtb_spec (59958921600 + (q - 1)) 59958921600),
      (Z.gtb_spec (q - 1) 0); try lia; reflexivity.
  - unfold addSec. cbn [ext nsec].
    rewrite (int64_small (59958921600 + q))
      by (unfold minInt64, maxInt64, two63; lia).
    exists (59958921600 + q), r.
    split; [|lia].
    destruct (Z.gtb_spec (59958921600 + q) 59958921600),
      (Z.gtb_spec q 0); try lia; reflexivity.
Qed.

(** [t.Sub(_epoch)] is the distance from the epoch, clamped to [int64]. *)
Lemma Sub_epoch t :
  validTime t -> Sub t _epoch = clamp (sinceEpoch t).
Proof.
  unfold validTime, sinceEpoch, clamp. rewrite epoch_eq. intros Hn.
  unfold Sub. cbn [ext nsec]. rewrite Z.sub_0_r.
  unfold Second. rewrite int64_mul_l, int64_add_l.
  set (x := (ext t - 59958921600) * 1000000000 + nsec t).
  destruct (Add_epoch (int64 x) (int64_range x)) as (e & n & Ha & Hnn & He).
  rewrite Ha. unfold Equal, Before. cbn [ext nsec].
  destruct (Z.le_gt_cases minInt64 x) as [Hlo|Hlo];
    [destruct (Z.le_gt_cases x maxInt64) as [Hhi|Hhi]|].
  - rewrite (int64_small x) in * by lia.
    assert (e = ext t /\ n = nsec t) as [-> ->] by (subst x; lia).
    rewrite !Z.eqb_refl. cbn [andb]. lia.
  - pose proof (int64_range x) as Hr.
    assert (Hne : ((e =? ext t) && (n =? nsec t)) = false).
    { apply andb_false_iff.
      destruct (Z.eqb_spec e (ext t)) as [->|]; [right|now left].
      apply Z.eqb_neq. intros ->. subst x. lia. }
    rewrite Hne.
    assert (Hb : ((ext t <? 59958921600)
                  || (ext t =? 59958921600) && (nsec t <? 0)) = false).
    { unfold maxInt64, two63 in Hhi. subst x. apply orb_false_iff. split.
      - apply Z.ltb_ge. lia.
      - apply andb_false_iff. right. apply Z.ltb_ge. lia. }
    rewrite Hb. unfold maxDuration. lia.
  - pose proof (int64_range x) as Hr.
    assert (Hne : ((e =? ext t) && (n =? nsec t)) = false).
    { apply andb_false_iff.
      destruct (Z.eqb_spec e (ext t)) as [->|]; [right|now left].
      apply Z.eqb_neq. intros ->. subst x. lia. }
    rewrite Hne.
    assert (Hb : ((ext t <? 59958921600)
                  || (ext t =? 59958921600) && (nsec t <? 0)) = true).
    { unfold minInt64, two63 in Hlo. subst x. apply orb_true_iff. left.
      apply Z.ltb_lt. lia. }
    rewrite Hb. unfold minDuration. lia.
Qed.

End SubFacts.

Section FromDateFacts.
Import time GoInt.

Lemma FromDate_clamp t :
  validTime t ->
  FromDate t = uint16 (Z.quot (clamp (sinceEpoch t)) cycleDuration).
Proof. intros H. unfold FromDate. rewrite (Sub_epoch t H). reflexivity. Qed.

Lemma Before_false t e :
  validTime t -> Before t (mkTime e 0) = false -> e <= ext t.
Proof.
  unfold validTime, Before. cbn [ext nsec]. intros Hn H.
  apply orb_false_iff in H. destruct H as [H _]. apply Z.ltb_ge in H. exact H.
Qed.

Lemma Before_true t e :
  validTime t -> Before t (mkTime e 0) = true -> ext t < e.
Proof.
  unfold validTime, Before. cbn [ext nsec]. intros Hn H.
  apply orb_true_iff in H. destruct H as [H|H].
  - apply Z.ltb_lt in H. exact H.
  - apply andb_true_iff in H. destruct H as [_ H]. apply Z.ltb_lt in H. lia.
Qed.

Lemma Before_true_l t e :
  validTime t -> Before (mkTime e 0) t = true -> e <= ext t.
Proof.
  unfold validTime, Before. cbn [ext nsec]. intros Hn H.
  apply orb_true_iff in H. destruct H as [H|H].
  - apply Z.ltb_lt in H. lia.
  - apply andb_true_iff in H. destruct H as [H _]. apply Z.eqb_eq in H. lia.
Qed.

End FromDateFacts.

(** X1: [FromDate] returns [c] for every instant from [Effective c] up to,
    not including, [Effective (c + 1)], when both cycles are in range. *)
Theorem FromDate_within_cycle (c : AIRAC.t) (t : time.Time) :
  inRange c -> inRange (c + 1) -> validTime t ->
  time.Before t (AIRAC.Effective c) = false ->
  time.Before t (AIRAC.Effective (c + 1)) = true ->
  FromDate t = c.
Proof.
  intros Hc Hn Ht Hlo Hhi.
  rewrite (Effective_inRange c Hc) in Hlo.
  rewrite (Effective_inRange (c + 1) Hn) in Hhi.
  apply (Before_false t _ Ht) in Hlo. apply (Before_true t _ Ht) in Hhi.
  apply inRange_iff in Hc. apply inRange_iff in Hn. unfold maxCycle in *.
  rewrite (FromDate_clamp t Ht).
  unfold validTime in Ht. unfold sinceEpoch, clamp. rewrite epoch_eq.
  cbn [time.ext]. unfold GoInt.minInt64, GoInt.maxInt64, GoInt.two63.
  set (x := (time.ext t - 59958921600) * 1000000000 + time.nsec t).
  assert (Hx : c * cycleDuration <= x < (c + 1) * cycleDuration)
    by (unfold cycleDuration; subst x; lia).
  unfold cycleDuration in *.
  rewrite Z.min_r, Z.max_r by lia.
  rewrite Z.quot_div_nonneg by lia.
  assert (Hq : x / 2419200000000000 = c)
    by (symmetry; apply (Z.div_unique x _ c (x - c * 2419200000000000)); lia).
  rewrite Hq. apply GoInt.uint16_small. lia.
Qed.

Lemma FromDate_within_cycle_witness :
  FromDate (time.Date 2021 time.February 24 23 59 59 999999999) = 1566.
Proof.
  apply (FromDate_within_cycle 1566
           (time.Date 2021 time.February 24 23 59 59 999999999)).
  - apply inRange_iff. unfold maxCycle. lia.
  - apply inRange_iff. unfold maxCycle. lia.
  - vm_compute. split; [discriminate | reflexivity].
  - vm_compute. reflexivity.
  - vm_compute. reflexivity.
Defined.

(** X2: [time.Sub] saturates, so [FromDate] returns the last cycle in range
    for every instant from its effective date on, however late. *)
Theorem FromDate_saturates (t : time.Time) :
  validTime t ->
  time.Before t (AIRAC.Effective maxCycle) = false ->
  FromDate t = maxCycle.
Proof.
  intros Ht Hlo.
  assert (Hm : inRange maxCycle) by (apply inRange_iff; unfold maxCycle; lia).
  rewrite (Effective_inRange maxCycle Hm) in Hlo.
  apply (Before_false t _ Ht) in Hlo. unfold maxCycle in *.
  rewrite (FromDate_clamp t Ht).
  unfold validTime in Ht. unfold sinceEpoch, clamp. rewrite epoch_eq.
  cbn [time.ext]. unfold GoInt.minInt64, GoInt.maxInt64, GoInt.two63.
  set (x := (time.ext t - 59958921600) * 1000000000 + time.nsec t).
  assert (Hx : 3812 * cycleDuration <= x) by (unfold cycleDuration; subst x; lia).
  unfold cycleDuration in *.
  set (y := Z.min _ x).
  assert (Hy : 3812 * 2419200000000000 <= y < 3813 * 2419200000000000)
    by (subst y; lia).
  rewrite Z.max_r by lia.
  rewrite Z.quot_div_nonneg by lia.
  assert (Hq : y / 2419200000000000 = 3812)
    by (symmetry; apply (Z.div_unique y _ 3812 (y - 3812 * 2419200000000000)); lia).
  rewrite Hq. reflexivity.
Qed.

Lemma FromDate_saturates_witness :
  FromDate (time.Date 9999 time.December 31 0 0 0 0) = maxCycle.
Proof.
  apply (FromDate_saturates (time.Date 9999 time.December 31 0 0 0 0)).
  - vm_compute. split; [discriminate | reflexivity].
  - vm_compute. reflexivity.
Defined.

(** X3: truncation toward zero makes [FromDate] return cycle 0 for every
    instant of the 28 days before the epoch as well, from 1900-12-13
    (exclusive) on. *)
Theorem FromDate_before_epoch_zero (t : time.Time) :
  validTime t ->
  time.Before (time.Date 1900 time.December 13 0 0 0 0) t = true ->
  time.Before t _epoch = true ->
  FromDate t = 0.
Proof.
  intros Ht Hlo Hhi.
  replace (time.Date 1900 time.December 13 0 0 0 0)
    with (time.mkTime (59958921600 - 2419200) 0) in Hlo by by_computation.
  rewrite epoch_eq in Hhi.
  assert (Hlo' : time.ext t * 1000000000 + time.nsec t
                 > (59958921600 - 2419200) * 1000000000).
  { unfold time.Before in Hlo. cbn [time.ext time.nsec] in Hlo.
    unfold validTime in Ht. apply orb_true_iff in Hlo. destruct Hlo as [H|H].
    - apply Z.ltb_lt in H. lia.
    - apply andb_true_iff in H. destruct H as [H1 H2].
      apply Z.eqb_eq in H1. apply Z.ltb_lt in H2. lia. }
  apply (Before_true t _ Ht) in Hhi.
  rewrite (FromDate_clamp t Ht).
  unfold validTime in Ht. unfold sinceEpoch, clamp. rewrite epoch_eq.
  cbn [time.ext]. unfold GoInt.minInt64, GoInt.maxInt64, GoInt.two63.
  set (x := (time.ext t - 59958921600) * 1000000000 + time.nsec t).
  assert (Hx : - cycleDuration < x < 0) by (unfold cycleDuration; subst x; lia).
  unfold cycleDuration in *.
  rewrite Z.min_r, Z.max_r by lia.
  assert (Hq : Z.quot x 2419200000000000 = 0)
    by (apply Z.quot_small_iff; lia).
  rewrite Hq. reflexivity.
Qed.

Lemma FromDate_before_epoch_zero_witness :
  FromDate (time.Date 1901 time.January 1 0 0 0 0) = 0.
Proof.
  apply (FromDate_before_epoch_zero (time.Date 1901 time.January 1 0 0 0 0)).
  - vm_compute. split; [discriminate | reflexivity].
  - vm_compute. reflexivity.
  - vm_compute. reflexivity.
Defined.

(** X4: an instant 28 days or more before the epoch gives a cycle number
    above the supported range, between 61724 and 65535. *)
Theorem FromDate_before_epoch_wraps (t : time.Time) :
  validTime t ->
  time.Before (time.Date 1900 time.December 13 0 0 0 0) t = false ->
  61724 <= FromDate t <= 65535.
Proof.
  intros Ht Hhi.
  replace (time.Date 1900 time.December 13 0 0 0 0)
    with (time.mkTime (59958921600 - 2419200) 0) in Hhi by by_computation.
  assert (Hhi' : time.ext t * 1000000000 + time.nsec t
                 <= (59958921600 - 2419200) * 1000000000).
  { unfold time.Before in Hhi. cbn [time.ext time.nsec] in Hhi.
    unfold validTime in Ht. apply orb_false_iff in Hhi. destruct Hhi as [H1 H2].
    apply Z.ltb_ge in H1. apply andb_false_iff in H2. destruct H2 as [H2|H2].
    - apply Z.eqb_neq in H2. lia.
    - apply Z.ltb_ge in H2. lia. }
  rewrite (FromDate_clamp t Ht).
  unfold validTime in Ht. unfold sinceEpoch, clamp. rewrite epoch_eq.
  cbn [time.ext]. unfold GoInt.minInt64, GoInt.maxInt64, GoInt.two63.
  set (x := (time.ext t - 59958921600) * 1000000000 + time.nsec t).
  assert (Hx : x <= - cycleDuration) by (unfold cycleDuration; subst x; lia).
  unfold cycleDuration in *.
  rewrite Z.min_r by lia.
  set (y := Z.max _ x).
  assert (Hy : -9223372036854775808 <= y <= -2419200000000000)
    by (subst y; lia).
  rewrite <- (Z.opp_involutive y), Z.quot_opp_l by lia.
  rewrite Z.quot_div_nonneg by lia.
  set (k := - y / 2419200000000000).
  assert (Hk : 1 <= k <= 3812)
    by (subst k; Z.to_euclidean_division_equations; lia).
  unfold GoInt.uint16, GoInt.two16.
  replace (- k) with (65536 - k + (-1) * 65536) by lia.
  rewrite Z.mod_add, Z.mod_small by lia. lia.
Qed.

Lemma FromDate_before_epoch_wraps_witness :
  61724 <= FromDate (time.Date 1900 time.January 1 0 0 0 0) <= 65535.
Proof.
  apply (FromDate_before_epoch_wraps (time.Date 1900 time.January 1 0 0 0 0)).
  - vm_compute. split; [discriminate | reflexivity].
  - vm_compute. reflexivity.
Defined.

(** ** Chronological sorting *)

Section SortFacts.

Lemma store_length c : forall i x, List.length (store c i x) = List.length c.
Proof.
  induction c as [|y c IH]; intros [|i] x; cbn [store List.length];
    try reflexivity.
  now rewrite IH.
Qed.

Lemma store_same c : forall i x,
  (i < List.length c)%nat -> nth_error (store c i x) i = Some x.
Proof.
  induction c as [|y c IH]; intros [|i] x H; cbn [List.length] in H;
    try lia; cbn [store nth_error]; [reflexivity|].
  apply IH. lia.
Qed.

Lemma store_other c : forall i k x,
  i <> k -> nth_error (store c i x) k = nth_error c k.
Proof.
  induction c as [|y c IH]; intros [|i] [|k] x H; cbn [store nth_error];
    try reflexivity; try congruence.
  apply IH. congruence.
Qed.


End SortFacts.

(** X5: on cycles in the supported range, [Less] is the chronological
    order of the effective dates. *)
Theorem Less_chronological (c : list AIRAC.t) (i j : nat) (a b : AIRAC.t) :
  nth_error c i = Some a -> nth_error c j = Some b ->
  inRange a -> inRange b ->
  Less c i j = Some (time.Before (AIRAC.Effective a) (AIRAC.Effective b)).
Proof.
  intros Hi Hj Ha Hb. unfold Less. rewrite Hi, Hj.
  rewrite (Effective_inRange a Ha), (Effective_inRange b Hb).
  unfold time.Before. cbn [time.ext time.nsec].
  change (0 <? 0) with false. rewrite andb_false_r, orb_false_r.
  f_equal. destruct (Z.ltb_spec a b), (Z.ltb_spec (59958921600 + 2419200 * a)
    (59958921600 + 2419200 * b)); try reflexivity; lia.
Qed.

Lemma Less_chronological_witness :
  Less [1566; 1565] 0 1 =
  Some (time.Before (AIRAC.Effective 1566) (AIRAC.Effective 1565)).
Proof.
  apply (Less_chronological [1566; 1565] 0 1 1566 1565).
  - reflexivity.
  - reflexivity.
  - apply inRange_iff. unfold maxCycle. lia.
  - apply inRange_iff. unfold maxCycle. lia.
Defined.

(** X6: [Swap] with both indices in range exchanges the two elements,
    leaves the others and the length as they are, and undoes itself. *)
Theorem Swap_exchanges (c : list AIRAC.t) (i j : nat) :
  (i < List.length c)%nat -> (j < List.length c)%nat ->
  exists c',
    Swap c i j = Some c' /\
    List.length c' = List.length c /\
    nth_error c' i = nth_error c j /\
    nth_error c' j = nth_error c i /\
    (forall k, k <> i -> k <> j -> nth_error c' k = nth_error c k) /\
    Swap c' i j = Some c.
Proof.
  intros Hi Hj. unfold Swap at 1.
  destruct (nth_error c j) as [cj|] eqn:Ej;
    [|apply nth_error_None in Ej; lia].
  destruct (nth_error c i) as [ci|] eqn:Ei;
    [|apply nth_error_None in Ei; lia].
  set (c' := store (store c i cj) j ci).
  assert (Hlen : List.length c' = List.length c)
    by (subst c'; now rewrite !store_length).
  assert (Hj' : nth_error c' j = Some ci)
    by (subst c'; apply store_same; now rewrite store_length).
  assert (Hi' : nth_error c' i = Some cj).
  { subst c'. destruct (Nat.eq_dec j i) as [->|Hne].
    - rewrite store_same by now rewrite store_length. congruence.
    - rewrite store_other by exact Hne. now apply store_same. }
  assert (Hk : forall k, k <> i -> k <> j -> nth_error c' k = nth_error c k).
  { intros k Hki Hkj. subst c'.
    rewrite store_other by congruence. apply store_other. congruence. }
  exists c'. repeat split; try assumption.
  unfold Swap. rewrite Hj', Hi'. f_equal.
  apply nth_error_ext. intros k.
  destruct (Nat.eq_dec k j) as [->|Hkj].
  - rewrite store_same; [congruence|]. now rewrite store_length, Hlen.
  - rewrite store_other by congruence.
    destruct (Nat.eq_dec k i) as [->|Hki].
    + rewrite store_same; [congruence|]. now rewrite Hlen.
    + rewrite store_other by congruence. now apply Hk.
Qed.

Lemma Swap_exchanges_witness :
  exists c',
    Swap [3; 1; 2] 0 2 = Some c' /\
    List.length c' = List.length [3; 1; 2] /\
    nth_error c' 0 = nth_error [3; 1; 2] 2 /\
    nth_error c' 2 = nth_error [3; 1; 2] 0 /\
    (forall k, k <> 0%nat -> k <> 2%nat ->
               nth_error c' k = nth_error [3; 1; 2] k) /\
    Swap c' 0 2 = Some [3; 1; 2].
Proof.
  apply (Swap_exchanges [3; 1; 2] 0 2); cbn [List.length]; lia.
Defined.


(** ** The short form is four digits *)

Section YearFacts.
Import time GoInt.

(** The year of an instant, from the 400-year period its day falls in. *)
Lemma Year_period t :
  0 <= abs t / secondsPerDay / daysPer400Years <= 1000000000 ->
  let n := abs t / secondsPerDay / daysPer400Years in
  400 * n - 292277022399 <= Year t <= 400 * n - 292277022399 + 399.
Proof.
  intros Hn. cbv zeta. unfold Year, absDate. cbv zeta.
  set (d0 := abs t / secondsPerDay) in *.
  set (n0 := d0 / daysPer400Years) in *.
  set (d1 := d0 - daysPer400Years * n0).
  set (n1 := d1 / daysPer100Years - Z.shiftr (d1 / daysPer100Years) 2).
  set (d2 := d1 - daysPer100Years * n1).
  set (n2 := d2 / daysPer4Years).
  set (d3 := d2 - daysPer4Years * n2).
  set (n3 := d3 / 365 - Z.shiftr (d3 / 365) 2).
  set (y := 400 * n0 + 100 * n1 + 4 * n2 + n3).
  assert (H1 : 0 <= d1 < 146097).
  { subst d1 n0. unfold daysPer400Years. change (365 * 400 + 97) with 146097.
    pose proof (Z.mod_pos_bound d0 146097 ltac:(lia)) as Hm.
    rewrite Z.mod_eq in Hm by lia. lia. }
  assert (Hn1 : 0 <= n1 <= 3 /\ 0 <= d2 <= 36524).
  { subst d2 n1. unfold daysPer100Years. change (365 * 100 + 24) with 36524.
    rewrite Z.shiftr_div_pow2 by lia. change (2 ^ 2) with 4.
    Z.to_euclidean_division_equations. lia. }
  assert (Hn2 : 0 <= n2 <= 24 /\ 0 <= d3 < 1461).
  { subst d3 n2. unfold daysPer4Years. change (365 * 4 + 1) with 1461.
    Z.to_euclidean_division_equations. lia. }
  assert (Hn3 : 0 <= n3 <= 3).
  { subst n3. rewrite Z.shiftr_div_pow2 by lia. change (2 ^ 2) with 4.
    Z.to_euclidean_division_equations. lia. }
  assert (Hy : 400 * n0 <= y <= 400 * n0 + 399) by (subst y; lia).
  clearbody y. unfold absoluteZeroYear.
  rewrite (int64_small y) by (unfold minInt64, maxInt64, two63; lia).
  rewrite (int64_small (y + -292277022399))
    by (unfold minInt64, maxInt64, two63; lia).
  destruct (isLeap _ && _); [lia|].
  destruct (_ >=? _); lia.
Qed.

(** Whatever the cycle number, the effective date stays within an [int64]
    count of nanoseconds from the epoch, between the years 1601 and 2400. *)
Lemma Year_any c : 1601 <= AIRAC.Year c <= 2400.
Proof.
  unfold AIRAC.Year, AIRAC.Effective. rewrite epoch_eq.
  destruct (Add_epoch (int64 (c * cycleDuration)) (int64_range _))
    as (e & n & Ha & Hn & He).
  rewrite Ha. pose proof (int64_range (c * cycleDuration)) as Hr.
  unfold minInt64, maxInt64, two63 in Hr.
  assert (Habs : abs (mkTime e n) = e + 9223371966579724800).
  { unfold abs. cbn [ext]. unfold internalToAbsolute, absoluteToInternal.
    apply uint64_small. unfold two64. lia. }
  assert (Hp : 730692560 <= abs (mkTime e n) / secondsPerDay / daysPer400Years
               <= 730692561).
  { rewrite Habs. unfold secondsPerDay, secondsPerHour, secondsPerMinute,
      daysPer400Years.
    change (24 * (60 * 60)) with 86400. change (365 * 400 + 97) with 146097.
    Z.to_euclidean_division_equations. lia. }
  pose proof (Year_period (mkTime e n) ltac:(lia)) as Hy. cbv zeta in Hy. lia.
Qed.

End YearFacts.

Section FormatFacts.

Lemma fmt_all :
  forallb
    (fun v =>
       wellFormed (fmt.fmt0d 2 (v / 100) ++ fmt.fmt0d 2 (v mod 100))
       && (decimalValue (fmt.fmt0d 2 (v / 100) ++ fmt.fmt0d 2 (v mod 100)) =? v))
    (cyclesTo 10000) = true.
Proof. by_computation. Qed.

Lemma fmt_wellFormed yy oo :
  0 <= yy <= 99 -> 0 <= oo <= 99 ->
  wellFormed (fmt.fmt0d 2 yy ++ fmt.fmt0d 2 oo) = true /\
  decimalValue (fmt.fmt0d 2 yy ++ fmt.fmt0d 2 oo) = 100 * yy + oo.
Proof.
  intros Hy Ho.
  assert (Hv : 0 <= 100 * yy + oo < 10000) by lia.
  pose proof (forallb_cyclesTo _ _ fmt_all (100 * yy + oo) Hv) as H.
  cbv beta in H.
  replace ((100 * yy + oo) / 100) with yy in H
    by (Z.to_euclidean_division_equations; lia).
  replace ((100 * yy + oo) mod 100) with oo in H
    by (Z.to_euclidean_division_equations; lia).
  apply andb_true_iff in H. destruct H as [H1 H2].
  apply Z.eqb_eq in H2. split; assumption.
Qed.

Lemma byte_inj c1 c2 : byte c1 = byte c2 -> c1 = c2.
Proof.
  unfold byte. intros H. apply N2Z.inj in H.
  rewrite <- (ascii_N_embedding c1), <- (ascii_N_embedding c2). now rewrite H.
Qed.

(** A well-formed identifier is determined by its value. *)
Lemma wellFormed_inj t1 t2 :
  wellFormed t1 = true -> wellFormed t2 = true ->
  decimalValue t1 = decimalValue t2 -> t1 = t2.
Proof.
  intros H1 H2.
  destruct (wellFormed_inv t1 H1) as (a1 & a2 & a3 & a4 & -> & Ha1 & Ha2 & Ha3 & Ha4).
  destruct (wellFormed_inv t2 H2) as (b1 & b2 & b3 & b4 & -> & Hb1 & Hb2 & Hb3 & Hb4).
  unfold decimalValue. cbn [decimalValueFrom]. intros H.
  assert (byte a1 = byte b1 /\ byte a2 = byte b2 /\
          byte a3 = byte b3 /\ byte a4 = byte b4) as (E1 & E2 & E3 & E4) by lia.
  apply byte_inj in E1, E2, E3, E4. now subst.
Qed.

Lemma resolveYear_suffix yy : 0 <= yy <= 99 -> Z.rem (resolveYear yy) 100 = yy.
Proof.
  intros H. pose proof (resolveYear_range yy H) as Hr.
  rewrite Z.rem_mod_nonneg by lia. unfold resolveYear in *. cbv zeta in *.
  destruct (Z.leb_spec (yy + 1900) 1963);
    Z.to_euclidean_division_equations; lia.
Qed.

End FormatFacts.

Lemma String_four_digits_aux (c : AIRAC.t) :
  wellFormed (AIRAC.String c) = true /\
  decimalValue (AIRAC.String c) = 100 * (AIRAC.Year c mod 100) + AIRAC.Ordinal c.
Proof.
  unfold AIRAC.String.
  pose proof (Year_any c) as Hy. pose proof (Ordinal_bounds c) as Ho.
  rewrite Z.rem_mod_nonneg by lia.
  assert (Hyy : 0 <= AIRAC.Year c mod 100 <= 99)
    by (pose proof (Z.mod_pos_bound (AIRAC.Year c) 100 ltac:(lia)); lia).
  assert (Hoo : 0 <= AIRAC.Ordinal c <= 99) by lia.
  exact (fmt_wellFormed _ _ Hyy Hoo).
Qed.

(** X8: for every cycle number, also beyond the supported range, [String]
    returns exactly four decimal digits, the year modulo 100 followed by
    the ordinal. *)
Theorem String_four_digits (c : AIRAC.t) :
  String.length (AIRAC.String c) = 4%nat /\
  allDigits (AIRAC.String c) = true /\
  decimalValue (AIRAC.String c) = 100 * (AIRAC.Year c mod 100) + AIRAC.Ordinal c.
Proof.
  destruct (String_four_digits_aux c) as [Hw Hv].
  destruct (wellFormed_true _ Hw) as (Hl & _ & Hd).
  split; [exact Hl|]. split; [exact Hd | exact Hv].
Qed.

(** ** Parsing and printing *)

Section RoundTripFacts.

(** What a success of [FromString] says of the cycle it returns. *)
Lemma FromString_success s c :
  FromString s = inl c ->
  wellFormed (strings.TrimSpace s) = true /\
  inRange c /\
  AIRAC.Year c = resolveYear (decimalValue (strings.TrimSpace s) / 100) /\
  AIRAC.Ordinal c = decimalValue (strings.TrimSpace s) mod 100.
Proof.
  rewrite FromString_candidate. intros H.
  destruct (wellFormed (strings.TrimSpace s)) eqn:Hw.
  - split; [reflexivity|].
    destruct (identifier_bounds _ Hw) as [Hyy Hoo].
    rewrite (parseIdentifier_wellFormed s Hw) in H. cbv beta iota in H.
    set (yy := decimalValue (strings.TrimSpace s) / 100) in *.
    set (oo := decimalValue (strings.TrimSpace s) mod 100) in *.
    destruct (Z.eqb_spec
                (AIRAC.Year (candidateFrom (lastOfPreviousYear (resolveYear yy)) oo))
                (resolveYear yy)) as [Hy|Hy]; [|discriminate H].
    destruct (candidate_sound yy oo Hyy Hoo Hy) as [Hr Ho].
    injection H as <-. split; [exact Hr|]. split; [exact Hy | exact Ho].
  - rewrite (parseIdentifier_illFormed s Hw) in H. discriminate H.
Qed.

(** The short form of a cycle in range and in the window parses back. *)
Lemma FromString_String_inRange c :
  inRange c -> 1964 <= AIRAC.Year c <= 2063 ->
  FromString (AIRAC.String c) = inl c.
Proof.
  intros Hc Hy. unfold AIRAC.String. rewrite FromString_candidate.
  assert (Hyy : 0 <= Z.rem (AIRAC.Year c) 100 <= 99).
  { rewrite Z.rem_mod_nonneg by lia.
    pose proof (Z.mod_pos_bound (AIRAC.Year c) 100 ltac:(lia)). lia. }
  assert (Hoo : 0 <= AIRAC.Ordinal c <= 99)
    by (pose proof (Ordinal_bounds c); lia).
  rewrite (parseIdentifier_fmt _ _ Hyy Hoo). cbv beta iota.
  rewrite (resolveYear_rem _ Hy), (candidate_roundtrip c Hc Hy), Z.eqb_refl.
  reflexivity.
Qed.

End RoundTripFacts.

(** X9: when [FromString] succeeds, the cycle it returns is in the
    supported range, its year is within 1964..2063, and its short form is
    the input with the surrounding white space trimmed. *)
Theorem String_FromString (s : string) (c : AIRAC.t) :
  FromString s = inl c ->
  inRange c /\ 1964 <= AIRAC.Year c <= 2063 /\
  AIRAC.String c = strings.TrimSpace s.
Proof.
  intros H. destruct (FromString_success s c H) as (Hw & Hr & Hy & Ho).
  destruct (identifier_bounds _ Hw) as [Hyy Hoo].
  split; [exact Hr|]. split.
  - rewrite Hy. apply resolveYear_range. exact Hyy.
  - destruct (String_four_digits_aux c) as [Hwc Hvc].
    apply wellFormed_inj; [exact Hwc | exact Hw |].
    rewrite Hvc, Hy, Ho.
    pose proof (resolveYear_range _ Hyy) as Hrr.
    rewrite <- Z.rem_mod_nonneg by lia. rewrite (resolveYear_suffix _ Hyy).
    pose proof (decimalValue_range _ Hw).
    Z.to_euclidean_division_equations. lia.
Qed.

Lemma String_FromString_witness :
  inRange 1565 /\ 1964 <= AIRAC.Year 1565 <= 2063 /\
  AIRAC.String 1565 = strings.TrimSpace " 2014 "%string.
Proof.
  apply (String_FromString " 2014 "%string 1565). vm_compute. reflexivity.
Defined.

(** X10: two cycles in the supported range with years within 1964..2063
    and the same short form are the same cycle. *)
Theorem String_injective (c1 c2 : AIRAC.t) :
  inRange c1 -> inRange c2 ->
  1964 <= AIRAC.Year c1 <= 2063 -> 1964 <= AIRAC.Year c2 <= 2063 ->
  AIRAC.String c1 = AIRAC.String c2 -> c1 = c2.
Proof.
  intros H1 H2 Hy1 Hy2 Hs.
  pose proof (FromString_String_inRange c1 H1 Hy1) as E1.
  pose proof (FromString_String_inRange c2 H2 Hy2) as E2.
  rewrite Hs, E2 in E1. injection E1 as E1. now symmetry.
Qed.

Lemma String_injective_witness :
  inRange 1566 /\ inRange (1565 + 1) /\
  AIRAC.String 1566 = AIRAC.String (1565 + 1) /\ 1566 = 1565 + 1.
Proof.
  assert (H1 : inRange 1566) by (apply inRange_iff; unfold maxCycle; lia).
  assert (H2 : inRange (1565 + 1)) by (apply inRange_iff; unfold maxCycle; lia).
  split; [exact H1|]. split; [exact H2|]. split; [reflexivity|].
  apply (String_injective 1566 (1565 + 1) H1 H2).
  - vm_compute. split; discriminate.
  - vm_compute. split; discriminate.
  - reflexivity.
Defined.

(** X11: [FromStringMust] returns the cycle that [FromString] returns and
    panics exactly on the inputs that must be rejected; on the short form
    of a cycle in range and in the window it returns that cycle. *)
Theorem FromStringMust_panics (s : string) :
  (FromStringMust s = None <-> rejected s) /\
  (forall c, FromStringMust s = Some c <-> FromString s = inl c) /\
  (forall c, inRange c -> 1964 <= AIRAC.Year c <= 2063 ->
             FromStringMust (AIRAC.String c) = Some c).
Proof.
  unfold FromStringMust. split; [|split].
  - destruct (FromString s) as [c|e] eqn:H.
    + split; [discriminate|]. intros Hr. exfalso.
      destruct (FromString_inl s c H) as [Hw Ho].
      destruct (wellFormed_true _ Hw) as (Hl & Hs & Hd).
      unfold rejected in Hr. cbv zeta in Hr. rewrite Hs, Hd in Hr.
      destruct Hr as [Hx|[Hx|[Hx|Hx]]];
        [tauto | discriminate | discriminate | tauto].
    + split; [|reflexivity]. intros _. exact (FromString_inr s e H).
  - intros c. destruct (FromString s) as [c'|e]; split; intros H;
      try discriminate; congruence.
  - intros c Hc Hy. rewrite (FromString_String_inRange c Hc Hy). reflexivity.
Qed.

(** X13: the short form of a cycle that [FromString] returned parses to
    the same cycle: printing normalises the input. *)
Theorem FromString_normalises (s : string) (c : AIRAC.t) :
  FromString s = inl c -> FromString (AIRAC.String c) = inl c.
Proof.
  intros H. destruct (FromString_success s c H) as (Hw & Hr & Hy & Ho).
  destruct (identifier_bounds _ Hw) as [Hyy Hoo].
  apply FromString_String_inRange; [exact Hr|].
  rewrite Hy. apply resolveYear_range. exact Hyy.
Qed.

Lemma FromString_normalises_witness :
  FromString (AIRAC.String 1566) = inl 1566.
Proof.
  apply (FromString_normalises " 2101 "%string 1566). vm_compute. reflexivity.
Defined.

(** ** Thirteen or fourteen cycles a year *)

Section CountFacts.

Lemma count_all :
  forallb
    (fun yy =>
       let last := lastOfPreviousYear (resolveYear yy) in
       forallb
         (fun o => AIRAC.Year (candidateFrom last (o + 1)) =? resolveYear yy)
         (cyclesTo 13))
    (cyclesTo 100) = true.
Proof. by_computation. Qed.

(** The first thirteen candidates of a resolved year are cycles of it. *)
Lemma candidate_first_13 yy o :
  0 <= yy <= 99 -> 1 <= o <= 13 ->
  AIRAC.Year (candidateFrom (lastOfPreviousYear (resolveYear yy)) o)
  = resolveYear yy.
Proof.
  intros Hyy' Ho'.
  assert (Hyy : 0 <= yy < 100) by lia.
  assert (Ho : 0 <= o - 1 < 13) by lia.
  pose proof (forallb_cyclesTo _ _ count_all yy Hyy) as H.
  cbv beta zeta in H.
  pose proof (forallb_cyclesTo _ _ H (o - 1) Ho) as H'. cbv beta in H'.
  replace (o - 1 + 1) with o in H' by lia.
  apply Z.eqb_eq. exact H'.
Qed.

End CountFacts.

(** X14: every resolved year has cycles 1 to 13 and none beyond 14: on a
    well-formed identifier [FromString] succeeds when the ordinal is
    between 01 and 13 and fails when it is 00 or at least 15. *)
Theorem FromString_ordinals (s : string) :
  wellFormed (strings.TrimSpace s) = true ->
  (1 <= identOrdinal (strings.TrimSpace s) <= 13 ->
   exists c, FromString s = inl c) /\
  (identOrdinal (strings.TrimSpace s) = 0 \/
   15 <= identOrdinal (strings.TrimSpace s) ->
   FromString s = inr (IllegalAIRACId s)).
Proof.
  unfold identOrdinal. intros Hw.
  destruct (identifier_bounds _ Hw) as [Hyy Hoo].
  rewrite FromString_candidate, (parseIdentifier_wellFormed s Hw).
  cbv beta iota.
  set (yy := decimalValue (strings.TrimSpace s) / 100) in *.
  set (oo := decimalValue (strings.TrimSpace s) mod 100) in *.
  split; intros Ho.
  - rewrite (candidate_first_13 yy oo Hyy Ho), Z.eqb_refl.
    eexists. reflexivity.
  - destruct (Z.eqb_spec
                (AIRAC.Year (candidateFrom (lastOfPreviousYear (resolveYear yy)) oo))
                (resolveYear yy)) as [Hy|Hy]; [|reflexivity].
    exfalso. destruct (candidate_sound yy oo Hyy Hoo Hy) as [_ Hord].
    pose proof (Ordinal_bounds
                  (candidateFrom (lastOfPreviousYear (resolveYear yy)) oo)) as Hb.
    lia.
Qed.

Lemma FromString_ordinals_witness :
  wellFormed (strings.TrimSpace "6313"%string) = true /\
  exists c, FromString "6313"%string = inl c.
Proof.
  split; [reflexivity|].
  apply (proj1 (FromString_ordinals "6313"%string eq_refl)).
  vm_compute. split; discriminate.
Defined.

(** ** Ordinals count the cycles of a year *)

Section SuccessionFacts.

(** [R] holds of every two neighbours of a list. *)
Fixpoint adjacent {A : Type} (R : A -> A -> bool) (l : list A) : bool :=
  match l with
  | [] => true
  | x :: l' =>
      match l' with
      | [] => true
      | y :: _ => R x y && adjacent R l'
      end
  end.

Lemma adjacent_nth {A : Type} (R : A -> A -> bool) (l : list A) :
  adjacent R l = true ->
  forall i x y,
    nth_error l i = Some x -> nth_error l (S i) = Some y -> R x y = true.
Proof.
  induction l as [|a l IH]; intros H i x y Hx Hy.
  - destruct i; discriminate Hx.
  - destruct l as [|b l'].
    + destruct i; cbn in Hy; [discriminate Hy | destruct i; discriminate Hy].
    + cbn [adjacent] in H. apply andb_true_iff in H. destruct H as [H1 H2].
      destruct i as [|i].
      * cbn in Hx, Hy. injection Hx as <-. injection Hy as <-. exact H1.
      * exact (IH H2 i x y Hx Hy).
Qed.

Lemma cyclesTo_nth {A : Type} (f : Z -> A) n c :
  0 <= c < n -> nth_error (map f (cyclesTo n)) (Z.to_nat c) = Some (f c).
Proof.
  intros H. unfold cyclesTo. rewrite map_map.
  rewrite nth_error_map, nth_error_seq.
  destruct (Nat.ltb_spec (Z.to_nat c) (Z.to_nat n)); [|lia].
  cbn [option_map]. f_equal. f_equal. lia.
Qed.

Lemma succession_all :
  adjacent
    (fun p q =>
       let '(y0, o0) := p in
       let '(y1, o1) := q in
       ((y1 =? y0) && (o1 =? o0 + 1)) || ((y1 =? y0 + 1) && (o1 =? 1)))
    (map (fun c => (AIRAC.Year c, AIRAC.Ordinal c)) (cyclesTo (maxCycle + 1)))
  = true.
Proof. by_computation. Qed.

End SuccessionFacts.

(** X12: from a cycle to the next, both in the supported range, either the
    year stays and the ordinal grows by one, or the year grows by one and
    the ordinal restarts at 1. *)
Theorem Ordinal_succession (c : AIRAC.t) :
  inRange c -> inRange (c + 1) ->
  (AIRAC.Year (c + 1) = AIRAC.Year c /\
   AIRAC.Ordinal (c + 1) = AIRAC.Ordinal c + 1) \/
  (AIRAC.Year (c + 1) = AIRAC.Year c + 1 /\ AIRAC.Ordinal (c + 1) = 1).
Proof.
  intros Hc Hn. apply inRange_iff in Hc. apply inRange_iff in Hn.
  assert (H0 : 0 <= c < maxCycle + 1) by lia.
  assert (H1 : 0 <= c + 1 < maxCycle + 1) by lia.
  pose proof (cyclesTo_nth (fun c => (AIRAC.Year c, AIRAC.Ordinal c))
                (maxCycle + 1) c H0) as E0.
  pose proof (cyclesTo_nth (fun c => (AIRAC.Year c, AIRAC.Ordinal c))
                (maxCycle + 1) (c + 1) H1) as E1.
  replace (Z.to_nat (c + 1)) with (S (Z.to_nat c)) in E1 by lia.
  pose proof (adjacent_nth _ _ succession_all _ _ _ E0 E1) as H.
  cbv beta iota in H.
  apply orb_true_iff in H. destruct H as [H|H];
    apply andb_true_iff in H; destruct H as [Ha Hb];
    apply Z.eqb_eq in Ha; apply Z.eqb_eq in Hb; [left | right];
    split; assumption.
Qed.

Lemma Ordinal_succession_witness :
  (AIRAC.Year (1565 + 1) = AIRAC.Year 1565 /\
   AIRAC.Ordinal (1565 + 1) = AIRAC.Ordinal 1565 + 1) \/
  (AIRAC.Year (1565 + 1) = AIRAC.Year 1565 + 1 /\ AIRAC.Ordinal (1565 + 1) = 1).
Proof.
  apply (Ordinal_succession 1565);
    apply inRange_iff; unfold maxCycle; lia.
Defined.
